(** * Shallow embedding of the symfonia gateway handshake and of a few REST handlers

    Sources:
    - src/src/gateway/establish_connection.rs  ([establish_connection],
      [get_or_new_gateway_user], [finish_connecting])
    - src/src/api/routes/guilds/id/vanity_url.rs ([get_vanity])
    - src/src/api/routes/channels/pins.rs ([add_pinned_message])
    - src/src/api/routes/users/me/mod.rs ([get_data])

    Shared Rust objects ([Arc<Mutex<GatewayUser>>], [Arc<Mutex<GatewayClient>>])
    live in an explicit heap indexed by locations, so that the aliasing between
    the [GatewayUsersStore], the returned [NewConnection] and the weak
    [parent] back reference is modelled as it is in the code. *)

From Stdlib Require Import String Ascii List.
From stdpp Require Import base gmap list.

Import ListNotations.
Open Scope N_scope.

(** Rust's [Result]. *)
Inductive Result (A E : Type) : Type :=
| Ok (a : A)
| Err (e : E).
Arguments Ok {A E} a.
Arguments Err {A E} e.

Module Gateway.

Definition Snowflake := N.
Definition loc := N.

(** chorus payload types, only the fields the handshake reads. *)
Record GatewayHeartbeat := mkHeartbeat { hb_op : N; hb_d : option N }.
Record GatewayIdentifyPayload := mkIdentify { identify_token : string }.
Record GatewayResume :=
  mkResume { resume_token : string; resume_session_id : string; resume_seq : N }.
Record GatewayHello := mkHello { hello_op : N; heartbeat_interval : N }.
Record Claims := mkClaims { claims_id : Snowflake }.

(** tungstenite frames received from the peer. *)
Inductive Message :=
| Text (s : string)
| Binary (b : list Byte.byte)
| Ping (b : list Byte.byte)
| Pong (b : list Byte.byte)
| Close.

(** Frames the server writes on the connection during the handshake. *)
Inductive OutFrame :=
| HelloFrame (h : GatewayHello)
| CloseFrame (code : N).

(** crate::errors *)
Inductive GatewayError := Closed | Timeout | UnexpectedMessage.
Inductive UserError := InvalidToken | InvalidUser.
Inductive Error :=
| EGateway (e : GatewayError)
| EUser (e : UserError)
| ETungstenite (msg : string)
| EResume (msg : string).

Record GatewayUser := mkGatewayUser {
  gu_id : Snowflake;
  gu_clients : list loc;
  gu_subscriptions : list Snowflake
}.

(** Spawned tokio tasks. A heartbeat handler remembers how many messages had
    already been sent on the [GatewayHeartbeat] broadcast channel when it
    (re)subscribed: a [resubscribe]d receiver only sees later messages. *)
Inductive Task :=
| HeartbeatHandlerTask (subscribed_from : nat)
| GatewayMainTask.

Record GatewayClient := mkGatewayClient {
  gc_parent : loc;            (* Weak<Mutex<GatewayUser>> *)
  gc_main_task_handle : nat;
  gc_heartbeat_task_handle : nat;
  gc_disconnect_info : option N;
  gc_session_token : string
}.

Record NewConnection := mkNewConnection { nc_user : loc; nc_client : loc }.

(** The part of the process state the handshake touches. *)
Record World := mkWorld {
  users : gmap loc GatewayUser;        (* Arc<Mutex<GatewayUser>> heap *)
  clients : gmap loc GatewayClient;    (* Arc<Mutex<GatewayClient>> heap *)
  store : gmap Snowflake loc;          (* GatewayUsersStore *)
  next_loc : loc;
  tasks : list Task;                   (* tokio::spawn, in order *)
  heartbeat_channel : list GatewayHeartbeat; (* sent on message_send *)
  kill_signals : nat;                  (* sent on kill_send *)
  sent_frames : list OutFrame          (* written on connection.sender *)
}.

Definition set_users (u : gmap loc GatewayUser) (w : World) : World :=
  mkWorld u (clients w) (store w) (next_loc w) (tasks w) (heartbeat_channel w)
    (kill_signals w) (sent_frames w).
Definition set_clients (c : gmap loc GatewayClient) (w : World) : World :=
  mkWorld (users w) c (store w) (next_loc w) (tasks w) (heartbeat_channel w)
    (kill_signals w) (sent_frames w).
Definition set_store (s : gmap Snowflake loc) (w : World) : World :=
  mkWorld (users w) (clients w) s (next_loc w) (tasks w) (heartbeat_channel w)
    (kill_signals w) (sent_frames w).
Definition set_next_loc (n : loc) (w : World) : World :=
  mkWorld (users w) (clients w) (store w) n (tasks w) (heartbeat_channel w)
    (kill_signals w) (sent_frames w).
Definition set_tasks (t : list Task) (w : World) : World :=
  mkWorld (users w) (clients w) (store w) (next_loc w) t (heartbeat_channel w)
    (kill_signals w) (sent_frames w).
Definition set_heartbeat_channel (c : list GatewayHeartbeat) (w : World) : World :=
  mkWorld (users w) (clients w) (store w) (next_loc w) (tasks w) c
    (kill_signals w) (sent_frames w).
Definition set_kill_signals (k : nat) (w : World) : World :=
  mkWorld (users w) (clients w) (store w) (next_loc w) (tasks w)
    (heartbeat_channel w) k (sent_frames w).
Definition set_sent_frames (f : list OutFrame) (w : World) : World :=
  mkWorld (users w) (clients w) (store w) (next_loc w) (tasks w)
    (heartbeat_channel w) (kill_signals w) f.

(** [Arc::new(Mutex::new(x))]: a fresh location. *)
Definition alloc_user (u : GatewayUser) (w : World) : World * loc :=
  let l := next_loc w in
  (set_next_loc (l + 1) (set_users (<[l := u]> (users w)) w), l).

Definition alloc_client (c : GatewayClient) (w : World) : World * loc :=
  let l := next_loc w in
  (set_next_loc (l + 1) (set_clients (<[l := c]> (clients w)) w), l).

(** [Weak::upgrade] on a back reference. *)
Definition upgrade (w : World) (l : loc) : option GatewayUser := users w !! l.

(** Heap well-formedness: every allocated location is below [next_loc] and
    the store only points at live users. *)
Definition wf (w : World) : Prop :=
  map_Forall (fun l _ => l < next_loc w) (users w) /\
  map_Forall (fun l _ => l < next_loc w) (clients w) /\
  map_Forall (fun _ l => is_Some (users w !! l)) (store w).

#[global] Instance wf_dec w : Decision (wf w).
Proof. unfold wf. apply _. Defined.

(** Invariant 1 of the data model: every client listed by a user has that
    user as its [parent]. *)
Definition parent_inv (w : World) : Prop :=
  map_Forall (fun u U => Forall (fun c => match clients w !! c with
                                         | Some C => gc_parent C = u
                                         | None => False
                                         end)
                                (gu_clients U)) (users w).

#[global] Instance parent_inv_dec w : Decision (parent_inv w).
Proof.
  unfold parent_inv. apply map_Forall_dec. intros u U. apply Forall_dec.
  intros c. destruct (clients w !! c); apply _.
Defined.

(** establish_connection.rs:97-112 *)
Definition get_or_new_gateway_user (user_id : Snowflake) (w : World)
  : World * loc :=
  match store w !! user_id with
  | Some user => (w, user)
  | None =>
      let '(w1, user) := alloc_user (mkGatewayUser user_id [] []) w in
      (set_store (<[user_id := user]> (store w1)) w1, user)
  end.

(** Collaborators the handshake calls but that are not part of
    establish_connection.rs: serde parsing ([from_str]), [Message]'s
    [Display], [check_token], [resume_connection] and chorus'
    [GatewayHello::default()]. They are kept abstract, so that every
    theorem below holds for all of them. *)
Record Collaborators := mkCollaborators {
  message_to_string : Message -> string;
  parse_heartbeat : string -> option GatewayHeartbeat;
  parse_identify : string -> option GatewayIdentifyPayload;
  parse_resume : string -> option GatewayResume;
  check_token : string -> option Claims;
  resume_connection : GatewayResume -> World -> World * Result NewConnection Error;
  gateway_hello_default : GatewayHello
}.

(** What one iteration of the [loop] in [finish_connecting] does: go round
    again, carrying [heartbeat_handler_handle], or return. *)
Inductive Step :=
| Continue (heartbeat_handler_handle : option nat)
| Return (r : Result NewConnection Error).

(** [tokio::spawn]: the handle is the task's index. *)
Definition spawn (t : Task) (w : World) : World * nat :=
  (set_tasks (tasks w ++ [t]) w, length (tasks w)).

(** [HeartbeatHandler::new(.., message_receive.resubscribe(), ..)] and spawn. *)
Definition spawn_heartbeat_handler (w : World) : World * nat :=
  spawn (HeartbeatHandlerTask (length (heartbeat_channel w))) w.

(** [gateway_user.lock().await.clients.push(client)] *)
Definition push_client (user : loc) (c : loc) (w : World) : World :=
  match users w !! user with
  | Some u =>
      set_users (<[user := mkGatewayUser (gu_id u) (gu_clients u ++ [c])
                                         (gu_subscriptions u)]> (users w)) w
  | None => w
  end.

Section Handshake.

Variable co : Collaborators.

(** establish_connection.rs:136-166 *)
Definition on_heartbeat (heartbeat_handler_handle : option nat)
    (heartbeat : GatewayHeartbeat) (w : World) : World * Step :=
  match heartbeat_handler_handle with
  | None =>
      let '(w1, h) := spawn_heartbeat_handler w in (w1, Continue (Some h))
  | Some _ =>
      (set_heartbeat_channel (heartbeat_channel w ++ [heartbeat]) w,
       Continue heartbeat_handler_handle)
  end.

(** establish_connection.rs:167-213 *)
Definition on_identify (heartbeat_handler_handle : option nat)
    (identify : GatewayIdentifyPayload) (w : World) : World * Step :=
  match check_token co (identify_token identify) with
  | None =>
      (set_kill_signals (S (kill_signals w)) w, Return (Err (EUser InvalidToken)))
  | Some claims =>
      let '(w1, gateway_user) := get_or_new_gateway_user (claims_id claims) w in
      let '(w2, main_task_handle) := spawn GatewayMainTask w1 in
      let '(w3, heartbeat_task_handle) :=
        match heartbeat_handler_handle with
        | Some handle => (w2, handle)
        | None => spawn_heartbeat_handler w2
        end in
      let '(w4, gateway_client) :=
        alloc_client (mkGatewayClient gateway_user main_task_handle
                        heartbeat_task_handle None (identify_token identify)) w3 in
      (push_client gateway_user gateway_client w4,
       Return (Ok (mkNewConnection gateway_user gateway_client)))
  end.

(** One received frame: establish_connection.rs:136-220. *)
Definition handle_frame (heartbeat_handler_handle : option nat) (raw_message : Message)
    (w : World) : World * Step :=
  let s := message_to_string co raw_message in
  match parse_heartbeat co s with
  | Some heartbeat => on_heartbeat heartbeat_handler_handle heartbeat w
  | None =>
      match parse_identify co s with
      | Some identify => on_identify heartbeat_handler_handle identify w
      | None =>
          match parse_resume co s with
          | Some resume =>
              let '(w1, r) := resume_connection co resume w in (w1, Return r)
          | None => (w, Return (Err (EGateway UnexpectedMessage)))
          end
      end
  end.

(** [connection.lock().await.receiver.next().await]: end of stream ([None]),
    a transport error, or a frame. establish_connection.rs:130-133 *)
Definition handle_item (heartbeat_handler_handle : option nat)
    (item : option (Result Message string)) (w : World) : World * Step :=
  match item with
  | None => (w, Return (Err (EGateway Timeout)))
  | Some (Err e) => (w, Return (Err (ETungstenite e)))
  | Some (Ok raw_message) => handle_frame heartbeat_handler_handle raw_message w
  end.

(** [finish_connecting] over the items the receiver yields; [None] in the
    result means the loop is still waiting for the next item. *)
Fixpoint finish_connecting (heartbeat_handler_handle : option nat)
    (items : list (option (Result Message string))) (w : World)
  : World * option (Result NewConnection Error) :=
  match items with
  | [] => (w, None)
  | item :: rest =>
      match handle_item heartbeat_handler_handle item w with
      | (w1, Continue hh) => finish_connecting hh rest w1
      | (w1, Return r) => (w1, Some r)
      end
  end.

(** Inputs of the [tokio::select!] of establish_connection.rs:65-90, each
    with the time (ms since the select started) at which it becomes ready. *)
Inductive Event :=
| Incoming (item : option (Result Message string))
| KillReceived.

Definition handshake_timeout_ms : N := 30000.

(** The race of establish_connection.rs:65-90. The [sleep] is created once,
    when the select starts; events are given in time order. The result
    carries the time at which establish_connection returns. *)
Fixpoint race (heartbeat_handler_handle : option nat) (events : list (N * Event))
    (w : World) : World * Result NewConnection Error * N :=
  match events with
  | [] => (w, Err (EGateway Timeout), handshake_timeout_ms)
  | (t, ev) :: rest =>
      if handshake_timeout_ms <=? t
      then (w, Err (EGateway Timeout), handshake_timeout_ms)
      else
        match ev with
        | KillReceived => (w, Err (EGateway Closed), t)
        | Incoming item =>
            match handle_item heartbeat_handler_handle item w with
            | (w1, Continue hh) => race hh rest w1
            | (w1, Return r) => (w1, r, t)
            end
        end
  end.

(** establish_connection.rs:33-93. [accepted] is the result of
    [accept_async], [hello_sent] the result of sending the Hello frame. A
    fresh connection starts with fresh channels and no frame written. *)
Definition establish_connection (accepted : Result unit string)
    (hello_sent : Result unit string) (events : list (N * Event)) (w : World)
  : World * Result NewConnection Error * N :=
  match accepted with
  | Err e => (w, Err (ETungstenite e), 0)
  | Ok _ =>
      match hello_sent with
      | Err e => (set_sent_frames [] w, Err (ETungstenite e), 0)
      | Ok _ =>
          let w1 := set_kill_signals 0 (set_heartbeat_channel []
                      (set_sent_frames [HelloFrame (gateway_hello_default co)] w)) in
          race None events w1
      end
  end.

(** An event that is a Heartbeat frame arriving before the deadline. *)
Definition heartbeat_before_deadline (ev : N * Event) : bool :=
  let '(t, e) := ev in
  (t <? handshake_timeout_ms) &&
  match e with
  | Incoming (Some (Ok m)) => bool_decide (is_Some (parse_heartbeat co (message_to_string co m)))
  | _ => false
  end.

(** The heartbeats carried by a list of events, in order. *)
Definition parsed_heartbeats (events : list (N * Event)) : list GatewayHeartbeat :=
  flat_map (fun ev => match snd ev with
                      | Incoming (Some (Ok m)) =>
                          from_option (fun hb => [hb]) [] (parse_heartbeat co (message_to_string co m))
                      | _ => []
                      end) events.

End Handshake.

(** The heartbeats a spawned heartbeat handler reads from its
    [message_receive.resubscribe()] receiver: those sent after it subscribed. *)
Definition delivered_to_handler (w : World) (h : nat) : list GatewayHeartbeat :=
  match nth_error (tasks w) h with
  | Some (HeartbeatHandlerTask k) => drop k (heartbeat_channel w)
  | _ => []
  end.

Definition heartbeat_handlers (w : World) : nat :=
  length (List.filter (fun t => match t with HeartbeatHandlerTask _ => true | _ => false end)
                 (tasks w)).

Definition empty_world : World := mkWorld ∅ ∅ ∅ 0 [] [] 0 [].

End Gateway.

(** ** REST handlers (poem) *)
Module Rest.

Definition Snowflake := N.
Definition StatusCode := N.
Definition OK : StatusCode := 200.
Definition NO_CONTENT : StatusCode := 204.
Definition NOT_FOUND : StatusCode := 404.

(** Evaluation that may panic: [unwrap] / [expect]. *)
Inductive Panicking (A : Type) : Type :=
| Value (a : A)
| Panic (msg : string).
Arguments Value {A} a.
Arguments Panic {A} msg.

Definition pbind {A B} (m : Panicking A) (f : A -> Panicking B) : Panicking B :=
  match m with Value a => f a | Panic msg => Panic msg end.

Definition unwrap {A E} (r : Result A E) : Panicking A :=
  match r with
  | Ok a => Value a
  | Err _ => Panic "called `Result::unwrap()` on an `Err` value"
  end.

Definition ok_or {A E} (o : option A) (e : E) : Result A E :=
  match o with Some a => Ok a | None => Err e end.

(** crate::errors, the variants these handlers use; [EDb] is an [sqlx::Error]
    propagated by [?]. *)
Inductive GuildError := InvalidGuild | MemberNotFound.
Inductive ChannelError := InvalidMessage | MaxPinsReached.
Inductive UserError := InvalidUser.
Inductive Error :=
| EDb (msg : string)
| EGuild (e : GuildError)
| EChannel (e : ChannelError)
| EUser (e : UserError).

(** *** vanity_url.rs *)

Inductive GuildFeatures :=
| AliasableNames
| VanityUrl
| InviteSplash
| Community
| OtherFeature (name : string).

#[global] Instance GuildFeatures_eq_dec : EqDecision GuildFeatures.
Proof. solve_decision. Defined.

Record Guild := mkGuild { guild_id : Snowflake; features : list GuildFeatures }.
Record Invite := mkInvite { invite_code : string; invite_uses : option N }.
Record GuildVanityInviteResponse := mkVanityResponse { code : string; uses : option N }.

(** Rust's [Vec::contains]. *)
Definition contains `{EqDecision A} (x : A) (l : list A) : bool :=
  existsb (fun y => bool_decide (y = x)) l.

(** The queries [get_vanity] issues ([Guild::get_by_id], [Guild::has_member],
    [Invite::get_by_guild_vanity]), each fallible. *)
Record VanityDb := mkVanityDb {
  guild_get_by_id : Snowflake -> Result (option Guild) string;
  guild_has_member : Guild -> Snowflake -> Result bool string;
  invite_get_by_guild_vanity : Snowflake -> Result (option Invite) string
}.

(** vanity_url.rs:24-54; [claims_id] is [claims.id]. *)
Definition get_vanity (db : VanityDb) (claims_id : Snowflake) (guild_id0 : Snowflake)
  : Result (GuildVanityInviteResponse * StatusCode) Error :=
  match guild_get_by_id db guild_id0 with
  | Err e => Err (EDb e)
  | Ok None => Err (EGuild InvalidGuild)
  | Ok (Some guild) =>
      match guild_has_member db guild claims_id with
      | Err e => Err (EDb e)
      | Ok false => Err (EGuild MemberNotFound)
      | Ok true =>
          let not_found := Ok (mkVanityResponse "" None, NOT_FOUND) in
          if negb (contains AliasableNames (features guild)) then
            match invite_get_by_guild_vanity db (guild_id guild) with
            | Err e => Err (EDb e)
            | Ok (Some invite) =>
                Ok (mkVanityResponse (invite_code invite) (invite_uses invite), OK)
            | Ok None => not_found
            end
          else not_found
      end
  end.

(** *** pins.rs *)

Record MessageRow := mkMessageRow {
  msg_id : Snowflake;
  message_channel_id : Snowflake;
  message_guild_id : option Snowflake
}.

(** Database calls, logged in the order the handler makes them. *)
Inductive DbCall :=
| GetById (channel_id message_id : Snowflake)
| CountPinned (channel_id : Snowflake)
| SetPinned (message_id : Snowflake) (pinned : bool).

(** The answers of the database to [Message::get_by_id],
    [Message::count_pinned] (an [i32]) and [Message::set_pinned]. *)
Record PinsDb := mkPinsDb {
  message_get_by_id : Snowflake -> Snowflake -> Result (option MessageRow) string;
  message_count_pinned : Snowflake -> Result Z string;
  message_set_pinned : Snowflake -> bool -> Result unit string
}.

(** The database state the handler changes: the pinned flag of each
    message, and the log of calls. *)
Record PinsState := mkPinsState {
  pinned : gmap Snowflake bool;
  calls : list DbCall
}.

Definition log (c : DbCall) (st : PinsState) : PinsState :=
  mkPinsState (pinned st) (calls st ++ [c]).

(** Rust's [x as i32] on an unsigned integer: keep the low 32 bits and read
    them in two's complement. *)
Definition as_i32 (n : N) : Z :=
  let m := Z.of_N (n mod 2 ^ 32) in
  if (m <? 2 ^ 31)%Z then m else (m - 2 ^ 32)%Z.

(** pins.rs:14-38; [max_pins] is [config.limits.channel.max_pins]. *)
Definition add_pinned_message (db : PinsDb) (max_pins : N) (st : PinsState)
    (channel_id message_id : Snowflake) : PinsState * Result StatusCode Error :=
  let st1 := log (GetById channel_id message_id) st in
  match message_get_by_id db channel_id message_id with
  | Err e => (st1, Err (EDb e))
  | Ok None => (st1, Err (EChannel InvalidMessage))
  | Ok (Some message) =>
      let st2 := log (CountPinned channel_id) st1 in
      match message_count_pinned db channel_id with
      | Err e => (st2, Err (EDb e))
      | Ok pinned_count =>
          if (as_i32 max_pins <=? pinned_count)%Z then
            (st2, Err (EChannel MaxPinsReached))
          else
            let st3 := log (SetPinned (msg_id message) true) st2 in
            match message_set_pinned db (msg_id message) true with
            | Err e => (st3, Err (EDb e))
            | Ok _ =>
                (mkPinsState (<[msg_id message := true]> (pinned st3)) (calls st3),
                 Ok NO_CONTENT)
            end
      end
  end.

(** *** users/me/mod.rs *)

Record User := mkUser { user_id : Snowflake; username : string }.

(** [User::get_by_id]. *)
Record UsersDb := mkUsersDb {
  user_get_by_id : Snowflake -> Result (option User) string
}.

(** users/me/mod.rs:23-35: both [unwrap]s panic on the error variant. *)
Definition get_data (db : UsersDb) (claims_id : Snowflake)
  : Panicking (Result User Error) :=
  pbind (unwrap (user_get_by_id db claims_id)) (fun found =>
  pbind (unwrap (ok_or found (EUser InvalidUser))) (fun user =>
  Value (Ok user))).

(** vanity_url.rs:56-83 *)
Record GuildCreateVanitySchema := mkVanitySchema { schema_code : string }.

(** Writes [set_vanity] makes: [Invite::set_code] on the current vanity
    invite (identified by its code) or [Invite::create_vanity]. *)
Inductive VanityWrite :=
| SetCode (old_code new_code : string)
| CreateVanity (guild_id : Snowflake) (code : string).

Record VanityWriteDb := mkVanityWriteDb {
  invite_set_code : Invite -> string -> Result unit string;
  invite_create_vanity : Snowflake -> string -> Result unit string
}.

Definition set_vanity (db : VanityDb) (wdb : VanityWriteDb)
    (claims_id guild_id0 : Snowflake) (payload : GuildCreateVanitySchema)
  : list VanityWrite * Result GuildVanityInviteResponse Error :=
  match guild_get_by_id db guild_id0 with
  | Err e => ([], Err (EDb e))
  | Ok None => ([], Err (EGuild InvalidGuild))
  | Ok (Some guild) =>
      match guild_has_member db guild claims_id with
      | Err e => ([], Err (EDb e))
      | Ok false => ([], Err (EGuild MemberNotFound))
      | Ok true =>
          let response := Ok (mkVanityResponse (schema_code payload) None) in
          match invite_get_by_guild_vanity db (guild_id guild) with
          | Err e => ([], Err (EDb e))
          | Ok (Some current_vanity) =>
              ([SetCode (invite_code current_vanity) (schema_code payload)],
               match invite_set_code wdb current_vanity (schema_code payload) with
               | Err e => Err (EDb e)
               | Ok _ => response
               end)
          | Ok None =>
              ([CreateVanity (guild_id guild) (schema_code payload)],
               match invite_create_vanity wdb (guild_id guild) (schema_code payload) with
               | Err e => Err (EDb e)
               | Ok _ => response
               end)
          end
      end
  end.

(** pins.rs:40-58 *)
Definition remove_pinned_message (db : PinsDb) (st : PinsState)
    (channel_id message_id : Snowflake) : PinsState * Result StatusCode Error :=
  let st1 := log (GetById channel_id message_id) st in
  match message_get_by_id db channel_id message_id with
  | Err e => (st1, Err (EDb e))
  | Ok None => (st1, Err (EChannel InvalidMessage))
  | Ok (Some message) =>
      let st2 := log (SetPinned (msg_id message) false) st1 in
      match message_set_pinned db (msg_id message) false with
      | Err e => (st2, Err (EDb e))
      | Ok _ =>
          (mkPinsState (<[msg_id message := false]> (pinned st2)) (calls st2),
           Ok NO_CONTENT)
      end
  end.

End Rest.

(** ** database/entities/audit_log.rs *)
Module AuditLog.

Definition Snowflake := N.

(** Values bound to a MySQL statement. *)
Inductive Arg :=
| ASnowflake (n : Snowflake)
| AU8 (n : N)
| AActionType (n : N).

(** sqlx's [QueryBuilder] for MySQL: SQL text and the bound arguments;
    [push_bind] writes the placeholder [?]. *)
Record QueryBuilder := mkQueryBuilder { qb_sql : string; qb_args : list Arg }.

Definition qb_new (init : string) : QueryBuilder := mkQueryBuilder init [].
Definition push (s : string) (b : QueryBuilder) : QueryBuilder :=
  mkQueryBuilder (qb_sql b ++ s) (qb_args b).
Definition push_bind (a : Arg) (b : QueryBuilder) : QueryBuilder :=
  mkQueryBuilder (qb_sql b ++ "?") (qb_args b ++ [a]).
(** [Query::bind] on the built query: one more argument, no SQL text. *)
Definition bind (a : Arg) (q : QueryBuilder) : QueryBuilder :=
  mkQueryBuilder (qb_sql q) (qb_args q ++ [a]).

(** The statement [get_by_guild] sends: audit_log.rs:64-96. *)
Definition get_by_guild_query (guild_id : Snowflake) (before after : option Snowflake)
    (limit : N) (user_id : option Snowflake) (action_type : option N) : QueryBuilder :=
  let b0 := qb_new "SELECT * FROM audit_logs WHERE guild_id = ? " in
  let b1 := match before with
            | Some before => push " " (push_bind (ASnowflake before) (push "AND id < " b0))
            | None => b0 end in
  let b2 := match after with
            | Some after => push " " (push_bind (ASnowflake after) (push "AND id > " b1))
            | None => b1 end in
  let b3 := match user_id with
            | Some user_id => push " " (push_bind (ASnowflake user_id) (push "AND user_id = " b2))
            | None => b2 end in
  let b4 := match action_type with
            | Some action_type =>
                push " " (push_bind (AActionType action_type) (push "AND action_type = " b3))
            | None => b3 end in
  let b5 := push_bind (AU8 limit) (push "LIMIT " b4) in
  bind (ASnowflake guild_id) b5.

(** The SQL text in front of each placeholder, in order. *)
Fixpoint placeholders_from (s : string) (acc : string) : list string :=
  match s with
  | EmptyString => []
  | String c rest =>
      if Ascii.eqb c "?"%char then acc :: placeholders_from rest ""
      else placeholders_from rest (acc ++ String c "")
  end.

Definition placeholders (s : string) : list string := placeholders_from s "".

(** The filter values, in the order [get_by_guild] pushes them. *)
Definition filter_args (before after user_id : option Snowflake) (action_type : option N)
  : list Arg :=
  from_option (fun x => [ASnowflake x]) [] before ++
  from_option (fun x => [ASnowflake x]) [] after ++
  from_option (fun x => [ASnowflake x]) [] user_id ++
  from_option (fun x => [AActionType x]) [] action_type.

(** The argument each placeholder receives: MySQL binds them by position. *)
Definition bindings (q : QueryBuilder) : list (string * Arg) :=
  combine (placeholders (qb_sql q)) (qb_args q).

(** audit_log.rs:95-104: [fetch_all] then [from_row] on each row; the
    [flatten] over [Result]s keeps the rows that decode. *)
Definition get_by_guild {Row Entry : Type}
    (fetch_all : QueryBuilder -> Result (list Row) string)
    (from_row : Row -> Result Entry string)
    (guild_id : Snowflake) (before after : option Snowflake) (limit : N)
    (user_id : option Snowflake) (action_type : option N) : Result (list Entry) Rest.Error :=
  match fetch_all (get_by_guild_query guild_id before after limit user_id action_type) with
  | Err e => Err (Rest.EDb e)
  | Ok r => Ok (flat_map (fun row => match from_row row with
                                     | Ok entry => [entry]
                                     | Err _ => []
                                     end) r)
  end.

End AuditLog.

(** Concrete collaborators, used to run the model on example inputs. *)
Module Demo.
Import Gateway.

Definition demo_to_string (m : Message) : string :=
  match m with Text s => s | _ => "" end.

Definition demo_parse_heartbeat (s : string) : option GatewayHeartbeat :=
  if String.eqb s "{op:1}" then Some (mkHeartbeat 1 None)
  else if String.eqb s "{op:1,d:7}" then Some (mkHeartbeat 1 (Some 7))
  else None.

Definition demo_parse_identify (s : string) : option GatewayIdentifyPayload :=
  if String.eqb s "{op:2,token:VALID}" then Some (mkIdentify "VALID")
  else if String.eqb s "{op:2,token:BAD}" then Some (mkIdentify "BAD")
  else None.

Definition demo_parse_resume (s : string) : option GatewayResume :=
  if String.eqb s "{op:6}" then Some (mkResume "VALID" "abc" 5) else None.

Definition demo_check_token (token : string) : option Claims :=
  if String.eqb token "VALID" then Some (mkClaims 42) else None.

Definition demo : Collaborators :=
  mkCollaborators demo_to_string demo_parse_heartbeat demo_parse_identify
    demo_parse_resume demo_check_token
    (fun _ w => (w, Err (EResume "CannotResume"))) (mkHello 10 45000).

End Demo.

(** ** Properties of the handshake *)
Module GatewayFacts.
Import Gateway.

Lemma wf_fresh_user w : wf w -> users w !! next_loc w = None.
Proof.
  intros [Hu _]. destruct (users w !! next_loc w) as [x|] eqn:E; [|done].
  apply Hu in E. simpl in E. lia.
Qed.

Lemma wf_fresh_client w : wf w -> clients w !! next_loc w = None.
Proof.
  intros [_ [Hc _]]. destruct (clients w !! next_loc w) as [x|] eqn:E; [|done].
  apply Hc in E. simpl in E. lia.
Qed.

Lemma get_or_new_gateway_user_spec user_id w :
  wf w ->
  let '(w', u) := get_or_new_gateway_user user_id w in
  wf w' /\ store w' !! user_id = Some u /\ is_Some (users w' !! u) /\
  clients w' = clients w /\ tasks w' = tasks w /\
  heartbeat_channel w' = heartbeat_channel w /\ kill_signals w' = kill_signals w /\
  sent_frames w' = sent_frames w /\
  (forall l, l <> u -> users w' !! l = users w !! l) /\
  (forall l U, users w !! l = Some U -> users w' !! l = Some U) /\
  next_loc w <= next_loc w'.
Proof.
  intros Hwf. unfold get_or_new_gateway_user.
  destruct (store w !! user_id) as [u|] eqn:Hs.
  - pose proof Hwf as (Hu & Hc & Hst).
    repeat split; auto; try lia; apply (Hst _ _ Hs).
  - pose proof (wf_fresh_user w Hwf) as Hfresh.
    destruct Hwf as (Hu & Hc & Hst). simpl.
    repeat split; simpl.
    + apply map_Forall_insert_2; [simpl; lia|].
      eapply map_Forall_impl; [exact Hu|]. simpl; intros; lia.
    + eapply map_Forall_impl; [exact Hc|]. simpl; intros; lia.
    + apply map_Forall_insert_2; [by rewrite lookup_insert_eq|].
      intros i l Hl. destruct (Hst i l Hl) as [U HU].
      destruct (decide (l = next_loc w)) as [->|Hne]; [congruence|].
      rewrite lookup_insert_ne; [|done]. by exists U.
    + apply lookup_insert_eq.
    + rewrite lookup_insert_eq. by eexists.
    + intros l Hne. by rewrite lookup_insert_ne.
    + intros l U HU. rewrite lookup_insert_ne; [done|]. congruence.
    + lia.
Qed.

(** C6: [get_or_new_gateway_user] is idempotent. An id already in the store
    yields the stored handle and the state is unchanged; otherwise exactly
    one fresh [GatewayUser] with no clients and no subscriptions is inserted
    under the id and returned; a second call with the same id returns the
    same handle and changes nothing. *)
Theorem get_or_new_gateway_user_idempotent (user_id : Snowflake) (w : World)
    (Hwf : wf w) :
  (forall u, store w !! user_id = Some u ->
     get_or_new_gateway_user user_id w = (w, u)) /\
  (store w !! user_id = None ->
     let '(w', u) := get_or_new_gateway_user user_id w in
     users w !! u = None /\
     users w' = <[u := mkGatewayUser user_id [] []]> (users w) /\
     store w' = <[user_id := u]> (store w) /\
     clients w' = clients w /\ wf w') /\
  (let '(w1, u1) := get_or_new_gateway_user user_id w in
   get_or_new_gateway_user user_id w1 = (w1, u1)).
Proof.
  split; [|split].
  - intros u Hs. unfold get_or_new_gateway_user. by rewrite Hs.
  - intros Hs. pose proof (get_or_new_gateway_user_spec user_id w Hwf) as Hsp.
    pose proof (wf_fresh_user w Hwf) as Hfresh.
    unfold get_or_new_gateway_user in *. rewrite Hs in *. simpl in *.
    destruct Hsp as [Hwf' _].
    exact (conj Hfresh (conj eq_refl (conj eq_refl (conj eq_refl Hwf')))).
  - pose proof (get_or_new_gateway_user_spec user_id w Hwf) as Hsp.
    destruct (get_or_new_gateway_user user_id w) as [w1 u1].
    destruct Hsp as (_ & Hs1 & _).
    unfold get_or_new_gateway_user. by rewrite Hs1.
Qed.

(** Spawning a task touches nothing but the task list. *)
Lemma spawn_fields t w :
  let w' := fst (spawn t w) in
  users w' = users w /\ clients w' = clients w /\ store w' = store w /\
  next_loc w' = next_loc w /\ heartbeat_channel w' = heartbeat_channel w /\
  kill_signals w' = kill_signals w /\ sent_frames w' = sent_frames w.
Proof. repeat split. Qed.

Lemma wf_ext w w' :
  users w' = users w -> clients w' = clients w -> store w' = store w ->
  next_loc w' = next_loc w -> wf w -> wf w'.
Proof. intros H1 H2 H3 H4. unfold wf. by rewrite H1, H2, H3, H4. Qed.

Lemma parent_inv_ext w w' :
  users w' = users w -> clients w' = clients w -> parent_inv w -> parent_inv w'.
Proof. intros H1 H2. unfold parent_inv. by rewrite H1, H2. Qed.

(** Allocating a client whose parent is [u] and pushing it on [u]'s list. *)
Lemma alloc_push_spec u C w :
  wf w -> parent_inv w -> is_Some (users w !! u) -> gc_parent C = u ->
  let '(w4, c) := alloc_client C w in
  let w5 := push_client u c w4 in
  c = next_loc w /\ clients w5 !! c = Some C /\
  (exists U, users w5 !! u = Some U /\ last (gu_clients U) = Some c) /\
  store w5 = store w /\ wf w5 /\ parent_inv w5 /\
  (forall l, l <> u -> users w5 !! l = users w !! l).
Proof.
  intros Hwf Hinv [U HU] Hpar. simpl.
  pose proof (wf_fresh_client w Hwf) as Hfresh.
  unfold push_client. simpl. rewrite HU. simpl.
  destruct Hwf as (Hu & Hc & Hst).
  split; [done|]. split; [apply lookup_insert_eq|]. split.
  { eexists. split; [apply lookup_insert_eq|]. simpl. apply last_snoc. }
  split; [done|]. split; [|split].
  - split; [|split]; simpl.
    + apply map_Forall_insert_2.
      * simpl. pose proof (Hu _ _ HU). simpl in *. lia.
      * eapply map_Forall_impl; [exact Hu|]. simpl; intros; lia.
    + apply map_Forall_insert_2; [simpl; lia|].
      eapply map_Forall_impl; [exact Hc|]. simpl; intros; lia.
    + intros i l Hl. destruct (Hst i l Hl) as [U' HU'].
      destruct (decide (l = u)) as [->|Hne].
      * rewrite lookup_insert_eq. by eexists.
      * rewrite lookup_insert_ne; [|done]. by exists U'.
  - intros l U' HU'. simpl in HU'.
    assert (Hold : forall l' U'', users w !! l' = Some U'' ->
      Forall (fun c => match <[next_loc w := C]> (clients w) !! c with
                       | Some C' => gc_parent C' = l'
                       | None => False
                       end) (gu_clients U'')).
    { intros l' U'' HU''. eapply Forall_impl; [exact (Hinv _ _ HU'')|].
      intros c Hc'. cbv beta in Hc' |- *.
      destruct (clients w !! c) as [C'|] eqn:HC'; [|done].
      rewrite lookup_insert_ne; [by rewrite HC'|]. intros <-. congruence. }
    destruct (decide (l = u)) as [->|Hne].
    + rewrite lookup_insert_eq in HU'. injection HU' as <-. simpl.
      apply Forall_app. split; [exact (Hold _ _ HU)|].
      constructor; [|constructor]. rewrite lookup_insert_eq. exact Hpar.
    + rewrite lookup_insert_ne in HU'; [|done]. exact (Hold _ _ HU').
  - intros l Hne. simpl. by rewrite lookup_insert_ne.
Qed.

Lemma get_or_new_gateway_user_parent_inv user_id w :
  parent_inv w -> parent_inv (fst (get_or_new_gateway_user user_id w)).
Proof.
  intros Hinv. unfold get_or_new_gateway_user.
  destruct (store w !! user_id); [done|]. simpl.
  apply map_Forall_insert_2; [by constructor|]. exact Hinv.
Qed.

(** What the Identify branch leaves behind when the token verifies. *)
Lemma on_identify_ok co hh identify claims w :
  wf w -> parent_inv w -> check_token co (identify_token identify) = Some claims ->
  exists w' u c U C,
    on_identify co hh identify w = (w', Return (Ok (mkNewConnection u c))) /\
    store w' !! claims_id claims = Some u /\
    users w' !! u = Some U /\ last (gu_clients U) = Some c /\
    clients w' !! c = Some C /\ gc_parent C = u /\
    gc_session_token C = identify_token identify /\
    wf w' /\ parent_inv w' /\
    kill_signals w' = kill_signals w /\ sent_frames w' = sent_frames w.
Proof.
  intros Hwf Hinv Htok. unfold on_identify. rewrite Htok.
  pose proof (get_or_new_gateway_user_parent_inv (claims_id claims) w Hinv) as Hinv1.
  pose proof (get_or_new_gateway_user_spec (claims_id claims) w Hwf) as Hsp.
  destruct (get_or_new_gateway_user (claims_id claims) w) as [w1 u] eqn:Eg.
  simpl in Hinv1.
  destruct Hsp as (Hwf1 & Hs1 & Hu1 & _ & _ & _ & Hk1 & Hf1 & _).
  destruct (spawn GatewayMainTask w1) as [w2 main] eqn:Es.
  pose proof (spawn_fields GatewayMainTask w1) as Hf2. rewrite Es in Hf2.
  simpl in Hf2. destruct Hf2 as (Hu2 & Hc2 & Hs2 & Hn2 & _ & Hk2 & Hsf2).
  destruct (match hh with Some handle => (w2, handle)
                        | None => spawn_heartbeat_handler w2 end) as [w3 hbh] eqn:Eh.
  assert (Hf3 : users w3 = users w2 /\ clients w3 = clients w2 /\
                store w3 = store w2 /\ next_loc w3 = next_loc w2 /\
                kill_signals w3 = kill_signals w2 /\ sent_frames w3 = sent_frames w2).
  { destruct hh as [h|].
    - injection Eh as <- _. repeat split.
    - unfold spawn_heartbeat_handler in Eh.
      pose proof (spawn_fields (HeartbeatHandlerTask (length (heartbeat_channel w2))) w2)
        as Hf. rewrite Eh in Hf. simpl in Hf. tauto. }
  destruct Hf3 as (Hu3 & Hc3 & Hs3 & Hn3 & Hk3 & Hsf3).
  assert (Hwf3 : wf w3).
  { apply (wf_ext w1); [congruence..|exact Hwf1]. }
  assert (Hinv3 : parent_inv w3).
  { apply (parent_inv_ext w1); [congruence..|exact Hinv1]. }
  assert (Hu3' : is_Some (users w3 !! u)) by (rewrite Hu3, Hu2; exact Hu1).
  set (C := mkGatewayClient u main hbh None (identify_token identify)).
  pose proof (alloc_push_spec u C w3 Hwf3 Hinv3 Hu3' eq_refl) as Hap.
  destruct (alloc_client C w3) as [w4 c] eqn:Ea.
  destruct Hap as (_ & HcC & (U & HU & Hlast) & Hs5 & Hwf5 & Hinv5 & _).
  exists (push_client u c w4), u, c, U, C.
  split; [done|]. split; [rewrite Hs5, Hs3, Hs2; exact Hs1|].
  do 6 (split; [done|]). split; [done|].
  unfold push_client. destruct (users w4 !! u); simpl;
    unfold alloc_client in Ea; injection Ea as <- _; simpl; split; congruence.
Qed.

Lemma before_deadline t : (t <? handshake_timeout_ms) = true ->
  (handshake_timeout_ms <=? t) = false.
Proof. intros H. rewrite N.leb_antisym. by rewrite H. Qed.

(** A heartbeat frame goes round the loop, changing only the task list and
    the heartbeat channel. *)
Lemma on_heartbeat_fields hh hb w :
  let '(w1, st) := on_heartbeat hh hb w in
  (exists hh1, st = Continue (Some hh1)) /\
  users w1 = users w /\ clients w1 = clients w /\ store w1 = store w /\
  next_loc w1 = next_loc w /\ kill_signals w1 = kill_signals w /\
  sent_frames w1 = sent_frames w.
Proof.
  destruct hh as [h|]; simpl; (split; [eexists; reflexivity|]); repeat split.
Qed.

Lemma race_heartbeats co hh pre rest w :
  forallb (heartbeat_before_deadline co) pre = true ->
  exists hh' w', race co hh (pre ++ rest) w = race co hh' rest w' /\
    users w' = users w /\ clients w' = clients w /\ store w' = store w /\
    next_loc w' = next_loc w /\ kill_signals w' = kill_signals w /\
    sent_frames w' = sent_frames w.
Proof.
  revert hh w. induction pre as [|[t e] pre IH]; intros hh w Hpre.
  - exists hh, w. repeat split.
  - simpl in Hpre. apply andb_prop in Hpre as [Hev Hpre].
    unfold heartbeat_before_deadline in Hev. apply andb_prop in Hev as [Ht He].
    destruct e as [[[m|e]|]|]; try discriminate.
    apply bool_decide_eq_true in He. destruct He as [hb Hhb].
    assert (Hstep : handle_item co hh (Some (Ok m)) w = on_heartbeat hh hb w).
    { simpl. unfold handle_frame. by rewrite Hhb. }
    pose proof (on_heartbeat_fields hh hb w) as Hf.
    destruct (on_heartbeat hh hb w) as [w1 st] eqn:Eo.
    destruct Hf as ([hh1 ->] & Hu & Hc & Hs & Hn & Hk & Hsf).
    destruct (IH (Some hh1) w1 Hpre) as (hh' & w' & Hr & Hu' & Hc' & Hs' & Hn' & Hk' & Hsf').
    exists hh', w'. cbn [race app]. rewrite (before_deadline _ Ht), Hstep.
    split; [exact Hr|]. repeat split; congruence.
Qed.

(** The race after the Hello frame, run on a heartbeat prefix. *)
Lemma establish_connection_after_heartbeats co pre rest w :
  forallb (heartbeat_before_deadline co) pre = true ->
  exists hh' w',
    establish_connection co (Ok tt) (Ok tt) (pre ++ rest) w = race co hh' rest w' /\
    users w' = users w /\ clients w' = clients w /\ store w' = store w /\
    next_loc w' = next_loc w /\ kill_signals w' = 0%nat /\
    sent_frames w' = [HelloFrame (gateway_hello_default co)].
Proof.
  intros Hpre. unfold establish_connection.
  destruct (race_heartbeats co None pre rest
             (set_kill_signals 0 (set_heartbeat_channel []
                (set_sent_frames [HelloFrame (gateway_hello_default co)] w))) Hpre)
    as (hh' & w' & Hr & Hu & Hc & Hs & Hn & Hk & Hsf).
  exists hh', w'. split; [exact Hr|]. repeat split; assumption.
Qed.

(** C1: each frame received while awaiting identity is tried as a
    Heartbeat first, then as an Identify, then as a Resume; a frame that is
    none of the three ends [establish_connection] with [UnexpectedMessage]. *)
Theorem handshake_frame_precedence (co : Collaborators) (hh : option nat)
    (raw : Message) (w : World) :
  let s := message_to_string co raw in
  (forall hb, parse_heartbeat co s = Some hb ->
     handle_frame co hh raw w = on_heartbeat hh hb w) /\
  (parse_heartbeat co s = None ->
   forall identify, parse_identify co s = Some identify ->
     handle_frame co hh raw w = on_identify co hh identify w) /\
  (parse_heartbeat co s = None -> parse_identify co s = None ->
   forall resume, parse_resume co s = Some resume ->
     handle_frame co hh raw w =
       (fst (resume_connection co resume w), Return (snd (resume_connection co resume w)))) /\
  (parse_heartbeat co s = None -> parse_identify co s = None ->
   parse_resume co s = None ->
     handle_frame co hh raw w = (w, Return (Err (EGateway UnexpectedMessage))) /\
     forall pre t post,
       forallb (heartbeat_before_deadline co) pre = true ->
       t < handshake_timeout_ms ->
       exists w', establish_connection co (Ok tt) (Ok tt)
                    (pre ++ (t, Incoming (Some (Ok raw))) :: post) w =
                  (w', Err (EGateway UnexpectedMessage), t)).
Proof.
  intros s. unfold handle_frame. fold s.
  split; [|split; [|split]].
  - intros hb H. by rewrite H.
  - intros H1 identify H2. by rewrite H1, H2.
  - intros H1 H2 resume H3. rewrite H1, H2, H3.
    by destruct (resume_connection co resume w).
  - intros H1 H2 H3. rewrite H1, H2, H3. split; [done|].
    intros pre t post Hpre Ht.
    destruct (establish_connection_after_heartbeats co pre
                ((t, Incoming (Some (Ok raw))) :: post) w Hpre)
      as (hh' & w' & Hr & _).
    exists w'. rewrite Hr. cbn [race].
    assert (Hle : (handshake_timeout_ms <=? t) = false).
    { apply N.leb_gt. exact Ht. }
    rewrite Hle. simpl. unfold handle_frame. fold s. by rewrite H1, H2, H3.
Qed.

(** C2 (as the code has it): when the peer sends, before the 30 s mark,
    nothing but Heartbeat frames (any number of them), [establish_connection]
    returns [Timeout] exactly at 30 s after the select starts: the sleep is
    created once and heartbeats do not reset it. No user state is created. *)
Theorem handshake_deadline_not_reset (co : Collaborators)
    (pre post : list (N * Event)) (w : World)
    (Hpre : forallb (heartbeat_before_deadline co) pre = true)
    (Hpost : forallb (fun ev => handshake_timeout_ms <=? fst ev) post = true) :
  exists w',
    establish_connection co (Ok tt) (Ok tt) (pre ++ post) w =
      (w', Err (EGateway Timeout), handshake_timeout_ms) /\
    store w' = store w /\ users w' = users w /\ clients w' = clients w.
Proof.
  destruct (establish_connection_after_heartbeats co pre post w Hpre)
    as (hh' & w' & Hr & Hu & Hc & Hs & _).
  exists w'. rewrite Hr. split; [|done].
  destruct post as [|[t e] post]; [reflexivity|].
  simpl in Hpost. apply andb_prop in Hpost as [Ht _].
  cbn [race]. simpl in Ht. by rewrite Ht.
Qed.

(** C4: an Identify frame whose token verifies makes [establish_connection]
    return a [NewConnection] whose client is the last entry of the user's
    [clients], whose [parent] upgrades to that same user, and whose user is
    the one the store maps the token's user id to; the back-reference
    invariant holds afterwards (given it held before). *)
Theorem identify_valid_token_registers_client (co : Collaborators)
    (pre post : list (N * Event)) (t : N) (raw : Message)
    (identify : GatewayIdentifyPayload) (claims : Claims) (w : World)
    (Hwf : wf w) (Hinv : parent_inv w)
    (Hpre : forallb (heartbeat_before_deadline co) pre = true)
    (Ht : t < handshake_timeout_ms)
    (Hhb : parse_heartbeat co (message_to_string co raw) = None)
    (Hid : parse_identify co (message_to_string co raw) = Some identify)
    (Htok : check_token co (identify_token identify) = Some claims) :
  exists w' u c U C,
    establish_connection co (Ok tt) (Ok tt)
      (pre ++ (t, Incoming (Some (Ok raw))) :: post) w =
      (w', Ok (mkNewConnection u c), t) /\
    store w' !! claims_id claims = Some u /\
    users w' !! u = Some U /\ c ∈ gu_clients U /\
    clients w' !! c = Some C /\ upgrade w' (gc_parent C) = Some U /\
    wf w' /\ parent_inv w'.
Proof.
  destruct (establish_connection_after_heartbeats co pre
              ((t, Incoming (Some (Ok raw))) :: post) w Hpre)
    as (hh' & w1 & Hr & Hu & Hc & Hs & Hn & _).
  assert (Hwf1 : wf w1) by (apply (wf_ext w); assumption).
  assert (Hinv1 : parent_inv w1) by (apply (parent_inv_ext w); assumption).
  destruct (on_identify_ok co hh' identify claims w1 Hwf1 Hinv1 Htok)
    as (w' & u & c & U & C & Ho & Hs' & HU & Hlast & HC & Hpar & _ & Hwf' & Hinv' & _).
  exists w', u, c, U, C. rewrite Hr. cbn [race].
  assert (Hle : (handshake_timeout_ms <=? t) = false) by (apply N.leb_gt; exact Ht).
  rewrite Hle. simpl. unfold handle_frame. rewrite Hhb, Hid, Ho.
  split; [done|]. split; [done|]. split; [done|]. split.
  { apply last_Some_elem_of. exact Hlast. }
  split; [done|]. split; [|done]. unfold upgrade. by rewrite Hpar.
Qed.

(** C5 (as the code has it): an Identify frame whose token fails to verify
    makes [establish_connection] send one kill signal and return
    [InvalidToken]; users, clients and the store are untouched, and the only
    frame [establish_connection] wrote is the Hello frame (no close frame). *)
Theorem identify_invalid_token_rejected (co : Collaborators)
    (pre post : list (N * Event)) (t : N) (raw : Message)
    (identify : GatewayIdentifyPayload) (w : World)
    (Hpre : forallb (heartbeat_before_deadline co) pre = true)
    (Ht : t < handshake_timeout_ms)
    (Hhb : parse_heartbeat co (message_to_string co raw) = None)
    (Hid : parse_identify co (message_to_string co raw) = Some identify)
    (Htok : check_token co (identify_token identify) = None) :
  exists w',
    establish_connection co (Ok tt) (Ok tt)
      (pre ++ (t, Incoming (Some (Ok raw))) :: post) w =
      (w', Err (EUser InvalidToken), t) /\
    kill_signals w' = 1%nat /\
    store w' = store w /\ users w' = users w /\ clients w' = clients w /\
    next_loc w' = next_loc w /\
    sent_frames w' = [HelloFrame (gateway_hello_default co)].
Proof.
  destruct (establish_connection_after_heartbeats co pre
              ((t, Incoming (Some (Ok raw))) :: post) w Hpre)
    as (hh' & w1 & Hr & Hu & Hc & Hs & Hn & Hk & Hsf).
  exists (set_kill_signals (S (kill_signals w1)) w1). rewrite Hr. cbn [race].
  assert (Hle : (handshake_timeout_ms <=? t) = false) by (apply N.leb_gt; exact Ht).
  rewrite Hle. simpl. unfold handle_frame. rewrite Hhb, Hid.
  unfold on_identify. rewrite Htok. simpl. rewrite Hk.
  repeat split; assumption.
Qed.

End GatewayFacts.

(** ** Properties of the REST handlers *)
Module RestFacts.
Import Rest.

(** A count that fits an [i32] and reaches [max_pins] means [max_pins] itself
    fits, so the [as i32] cast does not change it. *)
Lemma as_i32_small (max_pins : N) (cnt : Z) :
  (0 <= cnt < 2 ^ 31)%Z -> (Z.of_N max_pins <= cnt)%Z -> as_i32 max_pins = Z.of_N max_pins.
Proof.
  intros Hr Hle. unfold as_i32.
  assert (Hlt : max_pins < 2 ^ 32) by lia.
  rewrite (N.mod_small _ _ Hlt).
  assert (H : (Z.of_N max_pins <? 2 ^ 31)%Z = true) by (apply Z.ltb_lt; lia).
  by rewrite H.
Qed.

(** C8 (as the code has it): for a guild that exists and of which the
    requester is a member, [get_vanity] answers 404 with the empty code when
    the guild has [AliasableNames], whatever vanity invite exists, and the
    existing invite with 200 otherwise; on every input, a 200 answer comes
    from a guild without [AliasableNames]. *)
Theorem get_vanity_aliasable_names (db : VanityDb) (claims_id gid : Snowflake)
    (guild : Guild)
    (Hg : guild_get_by_id db gid = Ok (Some guild))
    (Hm : guild_has_member db guild claims_id = Ok true) :
  (contains AliasableNames (features guild) = true ->
     get_vanity db claims_id gid = Ok (mkVanityResponse "" None, NOT_FOUND)) /\
  (contains AliasableNames (features guild) = false ->
   forall invite, invite_get_by_guild_vanity db (guild_id guild) = Ok (Some invite) ->
     get_vanity db claims_id gid =
       Ok (mkVanityResponse (invite_code invite) (invite_uses invite), OK)) /\
  (forall db' cid gid' resp, get_vanity db' cid gid' = Ok (resp, OK) ->
     exists g, guild_get_by_id db' gid' = Ok (Some g) /\
               contains AliasableNames (features g) = false).
Proof.
  split; [|split].
  - intros Ha. unfold get_vanity. by rewrite Hg, Hm, Ha.
  - intros Ha invite Hi. unfold get_vanity. by rewrite Hg, Hm, Ha, Hi.
  - intros db' cid gid' resp H. unfold get_vanity in H.
    destruct (guild_get_by_id db' gid') as [[g|]|e]; try discriminate.
    exists g. split; [done|].
    destruct (guild_has_member db' g cid) as [[]|e]; try discriminate.
    destruct (contains AliasableNames (features g)); [discriminate|].
    reflexivity.
Qed.

(** C9 (as the code has it): when [count_pinned] reports a count (an [i32])
    that reaches [max_pins], [add_pinned_message] never calls [set_pinned]
    and leaves every pinned flag as it was; when the message lookup found
    the message, the answer is [MaxPinsReached]. *)
Theorem add_pinned_message_limit_atomic (db : PinsDb) (max_pins : N)
    (st : PinsState) (channel_id message_id : Snowflake) (cnt : Z)
    (Hcnt : message_count_pinned db channel_id = Ok cnt)
    (Hrange : (0 <= cnt < 2 ^ 31)%Z)
    (Hge : (Z.of_N max_pins <= cnt)%Z) :
  let '(st', r) := add_pinned_message db max_pins st channel_id message_id in
  pinned st' = pinned st /\
  (exists new, calls st' = calls st ++ new /\
               forall m b, SetPinned m b ∉ new) /\
  (forall message, message_get_by_id db channel_id message_id = Ok (Some message) ->
     r = Err (EChannel MaxPinsReached)).
Proof.
  unfold add_pinned_message.
  assert (Hle : (as_i32 max_pins <=? cnt)%Z = true).
  { rewrite (as_i32_small max_pins cnt Hrange Hge). by apply Z.leb_le. }
  destruct (message_get_by_id db channel_id message_id) as [[message|]|e] eqn:Eg.
  - rewrite Hcnt, Hle. simpl. split; [done|]. split.
    + eexists. split; [by rewrite <- app_assoc|].
      intros m b Hin. apply list_elem_of_In in Hin. simpl in Hin.
      destruct Hin as [Hin|[Hin|[]]]; discriminate.
    + intros m Hm. injection Hm as ->. reflexivity.
  - simpl. split; [done|]. split.
    + eexists. split; [reflexivity|].
      intros m b Hin. apply list_elem_of_In in Hin. simpl in Hin.
      destruct Hin as [Hin|[]]; discriminate.
    + intros m Hm. discriminate.
  - simpl. split; [done|]. split.
    + eexists. split; [reflexivity|].
      intros m b Hin. apply list_elem_of_In in Hin. simpl in Hin.
      destruct Hin as [Hin|[]]; discriminate.
    + intros m Hm. discriminate.
Qed.

(** C10: [get_data] panics (through [unwrap]) when the lookup fails or finds
    no user, and never returns an [Err] response. *)
Theorem get_data_unwrap_panics (db : UsersDb) (claims_id : Snowflake) :
  (forall msg, user_get_by_id db claims_id = Err msg ->
     exists p, get_data db claims_id = Panic p) /\
  (user_get_by_id db claims_id = Ok None ->
     exists p, get_data db claims_id = Panic p) /\
  (forall user, user_get_by_id db claims_id = Ok (Some user) ->
     get_data db claims_id = Value (Ok user)) /\
  (forall e, get_data db claims_id <> Value (Err e)).
Proof.
  unfold get_data. split; [|split; [|split]].
  - intros msg H. rewrite H. simpl. by eexists.
  - intros H. rewrite H. simpl. by eexists.
  - intros user H. by rewrite H.
  - intros e. destruct (user_get_by_id db claims_id) as [[u|]|msg]; simpl; discriminate.
Qed.

End RestFacts.

(** ** The handshake run on concrete inputs *)
Module GatewayRuns.
Import Gateway Demo GatewayFacts.

Definition hb_frame (t : N) : N * Event := (t, Incoming (Some (Ok (Text "{op:1}")))).

Lemma get_or_new_gateway_user_idempotent_witness :
  wf empty_world /\
  (let '(w1, u1) := get_or_new_gateway_user 42 empty_world in
   get_or_new_gateway_user 42 w1 = (w1, u1)).
Proof.
  assert (Hwf : wf empty_world) by (apply (bool_decide_unpack _); vm_compute; exact I).
  split; [exact Hwf|].
  exact (proj2 (proj2 (get_or_new_gateway_user_idempotent 42 empty_world Hwf))).
Defined.

Lemma handshake_frame_precedence_witness :
  exists w', establish_connection demo (Ok tt) (Ok tt)
               ([hb_frame 100] ++ (1000, Incoming (Some (Ok (Text "{op:3}")))) :: [])
               empty_world = (w', Err (EGateway UnexpectedMessage), 1000).
Proof.
  refine (proj2 (proj2 (proj2 (proj2
            (handshake_frame_precedence demo None (Text "{op:3}") empty_world)))
            eq_refl eq_refl eq_refl) [hb_frame 100] 1000 [] _ _);
    vm_compute; reflexivity.
Defined.

Lemma handshake_deadline_not_reset_witness :
  forallb (heartbeat_before_deadline demo) [hb_frame 100; hb_frame 15000; hb_frame 29999] = true /\
  exists w', establish_connection demo (Ok tt) (Ok tt)
    ([hb_frame 100; hb_frame 15000; hb_frame 29999] ++
     [(31000, Incoming (Some (Ok (Text "{op:2,token:VALID}"))))]) empty_world =
    (w', Err (EGateway Timeout), 30000) /\ store w' = ∅.
Proof.
  split; [vm_compute; reflexivity|].
  destruct (handshake_deadline_not_reset demo [hb_frame 100; hb_frame 15000; hb_frame 29999]
              [(31000, Incoming (Some (Ok (Text "{op:2,token:VALID}"))))] empty_world
              ltac:(vm_compute; reflexivity) ltac:(vm_compute; reflexivity))
    as (w' & H & Hs & _).
  exists w'. split; [exact H|exact Hs].
Defined.

(** The claim "no Identify and no Resume frame => Timeout at 30 s" fails:
    a frame that is neither ends the handshake at 1 s with
    [UnexpectedMessage], and the end of the stream at 1 s gives [Timeout]
    at 1 s, not at 30 s. *)
Lemma handshake_deadline_counterexample :
  demo_parse_identify "{op:3}" = None /\ demo_parse_resume "{op:3}" = None /\
  (let '(_, r, t) := establish_connection demo (Ok tt) (Ok tt)
                       [(1000, Incoming (Some (Ok (Text "{op:3}"))))] empty_world in
   r = Err (EGateway UnexpectedMessage) /\ t = 1000) /\
  (let '(_, r, t) := establish_connection demo (Ok tt) (Ok tt)
                       [(1000, Incoming None)] empty_world in
   r = Err (EGateway Timeout) /\ t = 1000).
Proof. vm_compute. repeat split. Qed.

Lemma identify_valid_token_registers_client_witness :
  wf empty_world /\ parent_inv empty_world /\
  exists w' u c U C,
    establish_connection demo (Ok tt) (Ok tt)
      ([hb_frame 100] ++ (2000, Incoming (Some (Ok (Text "{op:2,token:VALID}")))) :: [])
      empty_world = (w', Ok (mkNewConnection u c), 2000) /\
    store w' !! 42 = Some u /\
    users w' !! u = Some U /\ c ∈ gu_clients U /\
    clients w' !! c = Some C /\ upgrade w' (gc_parent C) = Some U /\
    wf w' /\ parent_inv w'.
Proof.
  assert (Hwf : wf empty_world) by (apply (bool_decide_unpack _); vm_compute; exact I).
  assert (Hinv : parent_inv empty_world) by (apply (bool_decide_unpack _); vm_compute; exact I).
  split; [exact Hwf|]. split; [exact Hinv|].
  exact (identify_valid_token_registers_client demo [hb_frame 100] []
           2000 (Text "{op:2,token:VALID}") (mkIdentify "VALID") (mkClaims 42)
           empty_world Hwf Hinv ltac:(vm_compute; reflexivity) ltac:(vm_compute; reflexivity)
           eq_refl eq_refl eq_refl).
Defined.

Lemma identify_invalid_token_rejected_witness :
  exists w',
    establish_connection demo (Ok tt) (Ok tt)
      ([] ++ (2000, Incoming (Some (Ok (Text "{op:2,token:BAD}")))) :: []) empty_world =
      (w', Err (EUser InvalidToken), 2000) /\
    kill_signals w' = 1%nat /\ store w' = ∅ /\ users w' = ∅ /\ clients w' = ∅ /\
    next_loc w' = 0 /\ sent_frames w' = [HelloFrame (mkHello 10 45000)].
Proof.
  exact (identify_invalid_token_rejected demo [] [] 2000 (Text "{op:2,token:BAD}")
           (mkIdentify "BAD") empty_world eq_refl ltac:(vm_compute; reflexivity)
           eq_refl eq_refl eq_refl).
Defined.

(** The claim that [establish_connection] sends close code 4004 on a bad
    token fails: the only frame it wrote is the Hello frame. *)
Lemma identify_invalid_token_counterexample :
  let '(w', r, _) := establish_connection demo (Ok tt) (Ok tt)
                       [(2000, Incoming (Some (Ok (Text "{op:2,token:BAD}"))))] empty_world in
  r = Err (EUser InvalidToken) /\ CloseFrame 4004 ∉ sent_frames w'.
Proof.
  vm_compute. split; [reflexivity|].
  intros H. apply list_elem_of_In in H. destruct H as [H|[]]. discriminate.
Qed.

(** C3: the first heartbeat received before Identify spawns the heartbeat
    handler but is not sent on the heartbeat channel, so the handler (whose
    receiver is resubscribed when it is spawned) never sees it; a second
    heartbeat is forwarded. One handler is spawned. *)
Theorem first_heartbeat_not_delivered :
  let '(w1, r) := finish_connecting demo None
                    [Some (Ok (Text "{op:1,d:7}")); Some (Ok (Text "{op:1}"))]
                    empty_world in
  r = None /\ heartbeat_handlers w1 = 1%nat /\
  tasks w1 = [HeartbeatHandlerTask 0] /\
  delivered_to_handler w1 0 = [mkHeartbeat 1 None].
Proof. vm_compute. repeat split. Qed.

End GatewayRuns.

(** ** The REST handlers run on concrete inputs *)
Module RestRuns.
Import Rest RestFacts.

(** Guild 7 has [AliasableNames] and a vanity invite; user 1 is a member,
    user 2 is not. *)
Definition vanity_db : VanityDb :=
  mkVanityDb
    (fun gid => if N.eqb gid 7 then Ok (Some (mkGuild 7 [Community; AliasableNames]))
                else Ok None)
    (fun _ uid => Ok (N.eqb uid 1))
    (fun _ => Ok (Some (mkInvite "cool" (Some 3)))).

Lemma get_vanity_aliasable_names_witness :
  get_vanity vanity_db 1 7 = Ok (mkVanityResponse "" None, NOT_FOUND).
Proof.
  exact (proj1 (get_vanity_aliasable_names vanity_db 1 7
                  (mkGuild 7 [Community; AliasableNames]) eq_refl eq_refl) eq_refl).
Defined.

(** The claim "every guild with [AliasableNames] gets the empty code and 404"
    fails for a requester who is not a member of the guild. *)
Lemma get_vanity_aliasable_names_counterexample :
  guild_get_by_id vanity_db 7 = Ok (Some (mkGuild 7 [Community; AliasableNames])) /\
  invite_get_by_guild_vanity vanity_db 7 = Ok (Some (mkInvite "cool" (Some 3))) /\
  get_vanity vanity_db 2 7 = Err (EGuild MemberNotFound) /\
  get_vanity vanity_db 2 7 <> Ok (mkVanityResponse "" None, NOT_FOUND).
Proof. vm_compute. repeat split. discriminate. Qed.

(** Channel 5 has 50 pinned messages; message 9 lives there, message 10 does
    not exist. *)
Definition pins_db : PinsDb :=
  mkPinsDb
    (fun ch mid => if N.eqb ch 5 && N.eqb mid 9 then Ok (Some (mkMessageRow 9 5 (Some 7)))
                   else Ok None)
    (fun _ => Ok 50%Z)
    (fun _ _ => Ok tt).

Definition pins_state : PinsState := mkPinsState (<[9 := false]> ∅) [].

Lemma add_pinned_message_limit_atomic_witness :
  let '(st', r) := add_pinned_message pins_db 50 pins_state 5 9 in
  pinned st' = pinned pins_state /\
  (exists new, calls st' = calls pins_state ++ new /\ forall m b, SetPinned m b ∉ new) /\
  (forall message, message_get_by_id pins_db 5 9 = Ok (Some message) ->
     r = Err (EChannel MaxPinsReached)).
Proof.
  exact (add_pinned_message_limit_atomic pins_db 50 pins_state 5 9 50%Z eq_refl
           ltac:(lia) ltac:(simpl; lia)).
Defined.

(** The claim "every channel at the limit gets [MaxPinsReached]" fails when
    the message does not exist: the answer is [InvalidMessage]. *)
Lemma add_pinned_message_limit_counterexample :
  message_count_pinned pins_db 5 = Ok 50%Z /\
  snd (add_pinned_message pins_db 50 pins_state 5 10) = Err (EChannel InvalidMessage) /\
  snd (add_pinned_message pins_db 50 pins_state 5 10) <> Err (EChannel MaxPinsReached).
Proof. vm_compute. repeat split. discriminate. Qed.

End RestRuns.

(** ** More properties of the REST handlers and of the audit log queries *)
Module RestExtra.
Import Rest RestFacts.

Lemma as_i32_id (n : N) : n < 2 ^ 31 -> as_i32 n = Z.of_N n.
Proof.
  intros Hn. unfold as_i32.
  rewrite (N.mod_small n (2 ^ 32)) by lia.
  assert (H : (Z.of_N n <? 2 ^ 31)%Z = true) by (apply Z.ltb_lt; lia).
  by rewrite H.
Qed.

(** [get_vanity] answers 200 exactly for a member of an existing guild
    without [AliasableNames] that has a vanity invite, with that invite's
    code and uses; every other successful answer is 404 with the empty code
    and no uses. *)
Theorem get_vanity_ok_iff (db : VanityDb) (claims_id gid : Snowflake)
    (resp : GuildVanityInviteResponse) :
  (get_vanity db claims_id gid = Ok (resp, OK) <->
   exists guild invite,
     guild_get_by_id db gid = Ok (Some guild) /\
     guild_has_member db guild claims_id = Ok true /\
     contains AliasableNames (features guild) = false /\
     invite_get_by_guild_vanity db (guild_id guild) = Ok (Some invite) /\
     resp = mkVanityResponse (invite_code invite) (invite_uses invite)) /\
  (forall status, get_vanity db claims_id gid = Ok (resp, status) ->
     status = OK \/ (status = NOT_FOUND /\ resp = mkVanityResponse "" None)).
Proof.
  unfold get_vanity, OK, NOT_FOUND. split; [split|].
  - destruct (guild_get_by_id db gid) as [[guild|]|e] eqn:Hg; try discriminate.
    destruct (guild_has_member db guild claims_id) as [[]|e] eqn:Hm; try discriminate.
    destruct (contains AliasableNames (features guild)) eqn:Ha; simpl; [discriminate|].
    destruct (invite_get_by_guild_vanity db (guild_id guild)) as [[invite|]|e] eqn:Hi;
      try discriminate.
    intros H. injection H as <-. by exists guild, invite.
  - intros (guild & invite & Hg & Hm & Ha & Hi & ->).
    by rewrite Hg, Hm, Ha, Hi.
  - intros status.
    destruct (guild_get_by_id db gid) as [[guild|]|e]; try discriminate.
    destruct (guild_has_member db guild claims_id) as [[]|e]; try discriminate.
    destruct (contains AliasableNames (features guild)); simpl.
    + intros H. injection H as <- <-. by right.
    + destruct (invite_get_by_guild_vanity db (guild_id guild)) as [[invite|]|e];
        intros H; try discriminate; injection H as <- <-; [by left|by right].
Qed.

(** [set_vanity] makes at most one write, and only for a member of an
    existing guild: [set_code] on the current vanity invite when there is
    one, [create_vanity] otherwise. A successful answer echoes the requested
    code with no uses. *)
Theorem set_vanity_single_write (db : VanityDb) (wdb : VanityWriteDb)
    (claims_id gid : Snowflake) (payload : GuildCreateVanitySchema) :
  let '(writes, r) := set_vanity db wdb claims_id gid payload in
  (length writes <= 1)%nat /\
  (forall resp, r = Ok resp ->
     resp = mkVanityResponse (schema_code payload) None /\ length writes = 1%nat) /\
  (writes <> [] -> exists guild, guild_get_by_id db gid = Ok (Some guild) /\
                                 guild_has_member db guild claims_id = Ok true) /\
  (forall guild, guild_get_by_id db gid = Ok (Some guild) ->
     guild_has_member db guild claims_id = Ok true ->
     (forall invite, invite_get_by_guild_vanity db (guild_id guild) = Ok (Some invite) ->
        writes = [SetCode (invite_code invite) (schema_code payload)]) /\
     (invite_get_by_guild_vanity db (guild_id guild) = Ok None ->
        writes = [CreateVanity (guild_id guild) (schema_code payload)])).
Proof.
  unfold set_vanity.
  destruct (guild_get_by_id db gid) as [[guild|]|e] eqn:Hg.
  2,3: split; [simpl; lia|]; split; [intros ? H; discriminate H|];
       split; [done|]; intros g H; discriminate H.
  destruct (guild_has_member db guild claims_id) as [[]|e] eqn:Hm.
  2,3: split; [simpl; lia|]; split; [intros ? H; discriminate H|];
       split; [done|]; intros g Hg' Hm'; injection Hg' as <-; congruence.
  destruct (invite_get_by_guild_vanity db (guild_id guild)) as [[invite|]|e] eqn:Hi.
  - split; [simpl; lia|]. split.
    + destruct (invite_set_code wdb invite (schema_code payload)); intros resp H;
        [injection H as <-; done|discriminate].
    + split; [intros _; by exists guild|].
      intros g Hg' _. injection Hg' as <-. rewrite Hi.
      split; [intros inv H; injection H as <-; done|discriminate].
  - split; [simpl; lia|]. split.
    + destruct (invite_create_vanity wdb (guild_id guild) (schema_code payload));
        intros resp H; [injection H as <-; done|discriminate].
    + split; [intros _; by exists guild|].
      intros g Hg' _. injection Hg' as <-. rewrite Hi.
      split; [discriminate|done].
  - split; [simpl; lia|]. split; [intros ? H; discriminate H|].
    split; [done|]. intros g Hg' _. injection Hg' as <-. rewrite Hi.
    split; discriminate.
Qed.

(** Below the pin limit (a [max_pins] that fits an [i32]), pinning an
    existing message makes the three calls get, count, set, pins it and
    answers 204. *)
Theorem add_pinned_message_below_limit (db : PinsDb) (max_pins : N) (st : PinsState)
    (channel_id message_id : Snowflake) (message : MessageRow) (cnt : Z)
    (Hget : message_get_by_id db channel_id message_id = Ok (Some message))
    (Hcnt : message_count_pinned db channel_id = Ok cnt)
    (Hmax : max_pins < 2 ^ 31) (Hlt : (cnt < Z.of_N max_pins)%Z)
    (Hset : message_set_pinned db (msg_id message) true = Ok tt) :
  add_pinned_message db max_pins st channel_id message_id =
    (mkPinsState (<[msg_id message := true]> (pinned st))
       (calls st ++ [GetById channel_id message_id; CountPinned channel_id;
                     SetPinned (msg_id message) true]),
     Ok NO_CONTENT).
Proof.
  unfold add_pinned_message. rewrite Hget, Hcnt, (as_i32_id _ Hmax).
  assert (H : (Z.of_N max_pins <=? cnt)%Z = false) by (apply Z.leb_gt; lia).
  rewrite H, Hset. simpl. by rewrite <- !app_assoc.
Qed.

(** [remove_pinned_message] never counts pins and never answers
    [MaxPinsReached]; for an existing message it unpins it and answers 204. *)
Theorem remove_pinned_message_unconditional (db : PinsDb) (st : PinsState)
    (channel_id message_id : Snowflake) :
  let '(st', r) := remove_pinned_message db st channel_id message_id in
  r <> Err (EChannel MaxPinsReached) /\
  (exists new, calls st' = calls st ++ new /\ forall c, CountPinned c ∉ new) /\
  (forall message, message_get_by_id db channel_id message_id = Ok (Some message) ->
     message_set_pinned db (msg_id message) false = Ok tt ->
     st' = mkPinsState (<[msg_id message := false]> (pinned st))
             (calls st ++ [GetById channel_id message_id; SetPinned (msg_id message) false]) /\
     r = Ok NO_CONTENT).
Proof.
  unfold remove_pinned_message.
  destruct (message_get_by_id db channel_id message_id) as [[message|]|e] eqn:Hg.
  - destruct (message_set_pinned db (msg_id message) false) as [[]|e] eqn:Hs; simpl.
    + split; [discriminate|]. split.
      * eexists. split; [by rewrite <- app_assoc|].
        intros c Hin. apply list_elem_of_In in Hin. simpl in Hin.
        destruct Hin as [Hin|[Hin|[]]]; discriminate.
      * intros m Hm _. injection Hm as <-. by rewrite <- app_assoc.
    + split; [discriminate|]. split.
      * eexists. split; [by rewrite <- app_assoc|].
        intros c Hin. apply list_elem_of_In in Hin. simpl in Hin.
        destruct Hin as [Hin|[Hin|[]]]; discriminate.
      * intros m Hm Hs'. injection Hm as <-. congruence.
  - simpl. split; [discriminate|]. split.
    + eexists. split; [reflexivity|]. intros c Hin. apply list_elem_of_In in Hin.
      destruct Hin as [Hin|[]]; discriminate.
    + intros m Hm. discriminate.
  - simpl. split; [discriminate|]. split.
    + eexists. split; [reflexivity|]. intros c Hin. apply list_elem_of_In in Hin.
      destruct Hin as [Hin|[]]; discriminate.
    + intros m Hm. discriminate.
Qed.

(** Pinning and then unpinning an existing message leaves the pinned flags
    as unpinning alone would: whatever the pin count and whether the pin
    succeeded, the message ends unpinned and no other flag changed. *)
Theorem pin_then_unpin (db : PinsDb) (max_pins : N) (st : PinsState)
    (channel_id message_id : Snowflake) (message : MessageRow)
    (Hget : message_get_by_id db channel_id message_id = Ok (Some message))
    (Hunset : message_set_pinned db (msg_id message) false = Ok tt) :
  pinned (fst (remove_pinned_message db
                 (fst (add_pinned_message db max_pins st channel_id message_id))
                 channel_id message_id)) =
  <[msg_id message := false]> (pinned st).
Proof.
  unfold remove_pinned_message. rewrite Hget, Hunset. simpl.
  unfold add_pinned_message. rewrite Hget.
  destruct (message_count_pinned db channel_id) as [cnt|e]; simpl; [|done].
  destruct (as_i32 max_pins <=? cnt)%Z; simpl; [done|].
  destruct (message_set_pinned db (msg_id message) true); simpl; [|done].
  apply insert_insert_eq.
Qed.

End RestExtra.

Module AuditLogFacts.
Import AuditLog.

(** [get_by_guild] writes as many placeholders as it binds values, but it
    binds [guild_id] last, after the limit, while the [guild_id = ?]
    placeholder comes first: MySQL pairs placeholders with values by
    position, so [guild_id = ?] receives the first filter value (or the
    limit when no filter is given) and [LIMIT ?] receives the guild id. *)
Theorem get_by_guild_binds_shifted (guild_id : Snowflake) (before after : option Snowflake)
    (limit : N) (user_id : option Snowflake) (action_type : option N) :
  let q := get_by_guild_query guild_id before after limit user_id action_type in
  length (placeholders (qb_sql q)) = length (qb_args q) /\
  qb_args q = filter_args before after user_id action_type ++ [AU8 limit; ASnowflake guild_id] /\
  head (bindings q) = Some ("SELECT * FROM audit_logs WHERE guild_id = "%string,
                            hd (AU8 limit) (filter_args before after user_id action_type)) /\
  last (bindings q) = Some (" LIMIT "%string, ASnowflake guild_id).
Proof.
  destruct before, after, user_id, action_type; vm_compute; repeat split.
Qed.

(** Once the rows are fetched, [get_by_guild] never fails: rows that do not
    decode are dropped silently, and the answer lists, in order, the entries
    of the rows that decode. *)
Theorem get_by_guild_drops_undecodable {Row Entry : Type}
    (fetch_all : QueryBuilder -> Result (list Row) string)
    (from_row : Row -> Result Entry string)
    (guild_id : Snowflake) (before after : option Snowflake) (limit : N)
    (user_id : option Snowflake) (action_type : option N) (rows : list Row)
    (Hf : fetch_all (get_by_guild_query guild_id before after limit user_id action_type) = Ok rows) :
  exists entries,
    get_by_guild fetch_all from_row guild_id before after limit user_id action_type = Ok entries /\
    (length entries <= length rows)%nat /\
    (forall e, In e entries <-> exists row, In row rows /\ from_row row = Ok e) /\
    ((forall row, In row rows -> exists e, from_row row = Ok e) ->
       length entries = length rows).
Proof.
  unfold get_by_guild. rewrite Hf. eexists. split; [reflexivity|].
  clear Hf. induction rows as [|row rows IH]; simpl.
  - split; [lia|]. split; [|done]. intros e. split; [done|]. by intros (? & [] & _).
  - destruct IH as (Hlen & Hin & Hall).
    destruct (from_row row) as [e0|err] eqn:Hr; simpl.
    + split; [lia|]. split.
      * intros e. split.
        -- intros [<-|H]; [by exists row; auto|].
           apply Hin in H as (r & Hr' & He). exists r; auto.
        -- intros (r & [<-|Hr'] & He); [left; congruence|].
           right. apply Hin. by exists r.
      * intros H. f_equal. apply Hall. intros r Hr'. apply H. auto.
    + split; [lia|]. split.
      * intros e. rewrite Hin. split.
        -- intros (r & Hr' & He). exists r; auto.
        -- intros (r & [<-|Hr'] & He); [congruence|]. by exists r.
      * intros H. destruct (H row (or_introl eq_refl)) as [e He]. congruence.
Qed.

End AuditLogFacts.

(** ** More properties of the handshake *)
Module GatewayExtra.
Import Gateway GatewayFacts.

(** With a heartbeat handler already spawned, heartbeat frames are all sent
    on the heartbeat channel, in order. *)
Lemma race_heartbeats_some co h pre rest w :
  forallb (heartbeat_before_deadline co) pre = true ->
  exists w', race co (Some h) (pre ++ rest) w = race co (Some h) rest w' /\
    users w' = users w /\ clients w' = clients w /\ store w' = store w /\
    next_loc w' = next_loc w /\ kill_signals w' = kill_signals w /\
    sent_frames w' = sent_frames w /\ tasks w' = tasks w /\
    heartbeat_channel w' = heartbeat_channel w ++ parsed_heartbeats co pre.
Proof.
  revert w. induction pre as [|[t e] pre IH]; intros w Hpre.
  - exists w. rewrite app_nil_r. repeat split.
  - simpl in Hpre. apply andb_prop in Hpre as [Hev Hpre].
    unfold heartbeat_before_deadline in Hev. apply andb_prop in Hev as [Ht He].
    destruct e as [[[m|e]|]|]; try discriminate.
    apply bool_decide_eq_true in He. destruct He as [hb Hhb].
    assert (Hstep : handle_item co (Some h) (Some (Ok m)) w = on_heartbeat (Some h) hb w).
    { simpl. unfold handle_frame. by rewrite Hhb. }
    destruct (IH (set_heartbeat_channel (heartbeat_channel w ++ [hb]) w) Hpre)
      as (w' & Hr & Hu & Hc & Hs & Hn & Hk & Hsf & Ht' & Hch).
    exists w'. cbn [race app]. rewrite (before_deadline _ Ht), Hstep.
    split; [exact Hr|]. repeat split; try assumption.
    rewrite Hch. unfold parsed_heartbeats. cbn [flat_map snd]. rewrite Hhb.
    simpl. by rewrite <- app_assoc.
Qed.

(** Starting without a handler, a non-empty run of heartbeat frames spawns
    exactly one handler (at the first) and sends all the others on the
    heartbeat channel. *)
Lemma race_heartbeats_none co pre rest w :
  forallb (heartbeat_before_deadline co) pre = true -> pre <> [] ->
  exists w', race co None (pre ++ rest) w = race co (Some (length (tasks w))) rest w' /\
    users w' = users w /\ clients w' = clients w /\ store w' = store w /\
    next_loc w' = next_loc w /\ kill_signals w' = kill_signals w /\
    sent_frames w' = sent_frames w /\
    tasks w' = tasks w ++ [HeartbeatHandlerTask (length (heartbeat_channel w))] /\
    heartbeat_channel w' = heartbeat_channel w ++ tail (parsed_heartbeats co pre).
Proof.
  intros Hpre Hne. destruct pre as [|[t e] pre]; [done|].
  simpl in Hpre. apply andb_prop in Hpre as [Hev Hpre].
  unfold heartbeat_before_deadline in Hev. apply andb_prop in Hev as [Ht He].
  destruct e as [[[m|e]|]|]; try discriminate.
  apply bool_decide_eq_true in He. destruct He as [hb Hhb].
  assert (Hstep : handle_item co None (Some (Ok m)) w = on_heartbeat None hb w).
  { simpl. unfold handle_frame. by rewrite Hhb. }
  destruct (race_heartbeats_some co (length (tasks w)) pre rest
              (fst (spawn_heartbeat_handler w)) Hpre)
    as (w' & Hr & Hu & Hc & Hs & Hn & Hk & Hsf & Ht' & Hch).
  exists w'. cbn [race app]. rewrite (before_deadline _ Ht), Hstep.
  split; [exact Hr|]. repeat split; try assumption.
  rewrite Hch. unfold parsed_heartbeats. cbn [flat_map snd]. rewrite Hhb.
  reflexivity.
Qed.

Lemma get_or_new_gateway_user_tasks user_id w :
  tasks (fst (get_or_new_gateway_user user_id w)) = tasks w /\
  heartbeat_channel (fst (get_or_new_gateway_user user_id w)) = heartbeat_channel w.
Proof. unfold get_or_new_gateway_user. by destruct (store w !! user_id). Qed.

(** The tasks a verified Identify spawns, and the handles the client keeps. *)
Lemma on_identify_tasks co hh identify claims w :
  check_token co (identify_token identify) = Some claims ->
  exists w' u c C,
    on_identify co hh identify w = (w', Return (Ok (mkNewConnection u c))) /\
    clients w' !! c = Some C /\
    match hh with
    | None =>
        tasks w' = tasks w ++ [GatewayMainTask;
                               HeartbeatHandlerTask (length (heartbeat_channel w))] /\
        gc_main_task_handle C = length (tasks w) /\
        gc_heartbeat_task_handle C = S (length (tasks w))
    | Some h =>
        tasks w' = tasks w ++ [GatewayMainTask] /\
        gc_main_task_handle C = length (tasks w) /\ gc_heartbeat_task_handle C = h
    end.
Proof.
  intros Htok. unfold on_identify. rewrite Htok.
  pose proof (get_or_new_gateway_user_tasks (claims_id claims) w) as [Ht1 Hc1].
  destruct (get_or_new_gateway_user (claims_id claims) w) as [w1 u]. simpl in Ht1, Hc1.
  destruct hh as [h|]; simpl; eexists _, u, _, _; (split; [reflexivity|]);
    unfold push_client; simpl; destruct (users w1 !! u); simpl;
    (split; [apply lookup_insert_eq|]); simpl;
    rewrite ?Ht1, ?Hc1, ?length_app, <- ?app_assoc; simpl;
    repeat split; lia.
Qed.

Lemma get_or_new_ext user_id w :
  wf w ->
  let '(w1, u) := get_or_new_gateway_user user_id w in
  (forall i l, store w !! i = Some l -> store w1 !! i = Some l) /\
  (exists U, users w1 !! u = Some U /\
             gu_clients U = from_option gu_clients [] (users w !! u)).
Proof.
  intros Hwf. unfold get_or_new_gateway_user.
  destruct (store w !! user_id) as [u|] eqn:Hs.
  - split; [done|]. pose proof Hwf as (_ & _ & Hst).
    destruct (Hst _ _ Hs) as [U HU]. exists U. by rewrite HU.
  - simpl. split.
    + intros i l Hl. rewrite lookup_insert_ne; [done|]. intros ->. congruence.
    + eexists. split; [apply lookup_insert_eq|]. by rewrite (wf_fresh_user w Hwf).
Qed.

(** A verified Identify keeps every store entry and every client, allocates
    a new client, and appends it to the user's client list. *)
Lemma on_identify_ext co hh identify claims w :
  wf w -> check_token co (identify_token identify) = Some claims ->
  let '(w', st) := on_identify co hh identify w in
  forall u c, st = Return (Ok (mkNewConnection u c)) ->
  (forall i l, store w !! i = Some l -> store w' !! i = Some l) /\
  clients w !! c = None /\ is_Some (clients w' !! c) /\
  (forall l C, clients w !! l = Some C -> clients w' !! l = Some C) /\
  (exists U, users w' !! u = Some U /\
             gu_clients U = from_option gu_clients [] (users w !! u) ++ [c]).
Proof.
  intros Hwf Htok. unfold on_identify. rewrite Htok.
  pose proof (get_or_new_ext (claims_id claims) w Hwf) as Hx.
  pose proof (get_or_new_gateway_user_spec (claims_id claims) w Hwf) as Hsp.
  destruct (get_or_new_gateway_user (claims_id claims) w) as [w1 u0].
  destruct Hx as (Hs1 & U1 & HU1 & HcU1). destruct Hsp as (Hwf1 & _ & _ & Hc1 & _).
  pose proof (wf_fresh_client w1 Hwf1) as Hfresh. rewrite Hc1 in Hfresh.
  destruct hh as [h|]; simpl; intros u c H; injection H as <- <-;
    unfold push_client; simpl; rewrite HU1; simpl;
    (split; [exact Hs1|]); (split; [exact Hfresh|]);
    (split; [rewrite lookup_insert_eq; by eexists|]);
    (split; [intros l C HC; rewrite lookup_insert_ne; [by rewrite Hc1|];
             intros <-; congruence|]);
    eexists; (split; [apply lookup_insert_eq|]); simpl; by rewrite HcU1.
Qed.

Lemma identify_step co hh raw identify w :
  parse_heartbeat co (message_to_string co raw) = None ->
  parse_identify co (message_to_string co raw) = Some identify ->
  handle_item co hh (Some (Ok raw)) w = on_identify co hh identify w.
Proof. intros Hhb Hid. simpl. unfold handle_frame. by rewrite Hhb, Hid. Qed.

Lemma nth_error_app_length {A} (l r : list A) k :
  nth_error (l ++ r) (length l + k) = nth_error r k.
Proof. rewrite nth_error_app2 by lia. f_equal. lia. Qed.

(** A verified Identify, run through the whole handshake, keeps every store
    entry and every existing client, and appends a fresh client to the
    user's client list. *)
Lemma run_identify_ext co pre post t raw identify claims w :
  wf w -> parent_inv w ->
  forallb (heartbeat_before_deadline co) pre = true ->
  t < handshake_timeout_ms ->
  parse_heartbeat co (message_to_string co raw) = None ->
  parse_identify co (message_to_string co raw) = Some identify ->
  check_token co (identify_token identify) = Some claims ->
  exists w' u c,
    establish_connection co (Ok tt) (Ok tt)
      (pre ++ (t, Incoming (Some (Ok raw))) :: post) w =
      (w', Ok (mkNewConnection u c), t) /\
    store w' !! claims_id claims = Some u /\
    (forall i l, store w !! i = Some l -> store w' !! i = Some l) /\
    clients w !! c = None /\ is_Some (clients w' !! c) /\
    (forall l C, clients w !! l = Some C -> clients w' !! l = Some C) /\
    (exists U, users w' !! u = Some U /\
               gu_clients U = from_option gu_clients [] (users w !! u) ++ [c]) /\
    wf w' /\ parent_inv w'.
Proof.
  intros Hwf Hinv Hpre Ht Hhb Hid Htok.
  destruct (establish_connection_after_heartbeats co pre
              ((t, Incoming (Some (Ok raw))) :: post) w Hpre)
    as (hh' & w1 & Hr & Hu & Hc & Hs & Hn & _).
  assert (Hwf1 : wf w1) by (apply (wf_ext w); assumption).
  assert (Hinv1 : parent_inv w1) by (apply (parent_inv_ext w); assumption).
  destruct (on_identify_ok co hh' identify claims w1 Hwf1 Hinv1 Htok)
    as (w' & u & c & U & C & Ho & Hs' & _ & _ & _ & _ & _ & Hwf' & Hinv' & _).
  pose proof (on_identify_ext co hh' identify claims w1 Hwf1 Htok) as Hx.
  rewrite Ho in Hx. destruct (Hx u c eq_refl) as (Hst & Hfresh & Hc' & Hcl & Hus).
  exists w', u, c. rewrite Hr. cbn [race].
  rewrite (before_deadline t) by (apply N.ltb_lt; exact Ht).
  rewrite (identify_step co hh' raw identify w1 Hhb Hid), Ho.
  rewrite Hs in Hst. rewrite Hc in Hfresh, Hcl. rewrite Hu in Hus.
  split; [done|]. split; [done|]. split; [exact Hst|]. split; [exact Hfresh|].
  split; [exact Hc'|]. split; [exact Hcl|]. split; [exact Hus|]. by split.
Qed.


(** A verified Identify spawns exactly one main task, and one heartbeat
    handler unless a Heartbeat already spawned it; the client's handles
    index these two tasks. *)
Theorem identify_spawns_main_and_handler (co : Collaborators)
    (pre post : list (N * Event)) (t : N) (raw : Message)
    (identify : GatewayIdentifyPayload) (claims : Claims) (w : World)
    (Hpre : forallb (heartbeat_before_deadline co) pre = true)
    (Ht : t < handshake_timeout_ms)
    (Hhb : parse_heartbeat co (message_to_string co raw) = None)
    (Hid : parse_identify co (message_to_string co raw) = Some identify)
    (Htok : check_token co (identify_token identify) = Some claims) :
  exists w' u c C,
    establish_connection co (Ok tt) (Ok tt)
      (pre ++ (t, Incoming (Some (Ok raw))) :: post) w =
      (w', Ok (mkNewConnection u c), t) /\
    clients w' !! c = Some C /\
    tasks w' = tasks w ++ match pre with
                          | [] => [GatewayMainTask; HeartbeatHandlerTask 0]
                          | _ :: _ => [HeartbeatHandlerTask 0; GatewayMainTask]
                          end /\
    nth_error (tasks w') (gc_main_task_handle C) = Some GatewayMainTask /\
    nth_error (tasks w') (gc_heartbeat_task_handle C) = Some (HeartbeatHandlerTask 0).
Proof.
  assert (Hle : (handshake_timeout_ms <=? t) = false)
    by (apply before_deadline, N.ltb_lt; exact Ht).
  unfold establish_connection.
  set (w1 := set_kill_signals 0 (set_heartbeat_channel []
               (set_sent_frames [HelloFrame (gateway_hello_default co)] w))).
  destruct pre as [|ev pre'] eqn:Epre.
  - cbn [app race]. rewrite Hle, (identify_step co None raw identify w1 Hhb Hid).
    destruct (on_identify_tasks co None identify claims w1 Htok)
      as (w' & u & c & C & Ho & HC & Hts & Hm & Hh).
    rewrite Ho. exists w', u, c, C. unfold w1 in Hts, Hm, Hh. simpl in Hts, Hm, Hh.
    split; [done|]. split; [done|]. split; [exact Hts|].
    rewrite Hts, Hm, Hh. split.
    + rewrite <- (Nat.add_0_r (length (tasks w))), nth_error_app_length. done.
    + rewrite <- Nat.add_1_r, nth_error_app_length. done.
  - rewrite <- Epre in Hpre.
    destruct (race_heartbeats_none co pre ((t, Incoming (Some (Ok raw))) :: post) w1
                Hpre ltac:(by rewrite Epre))
      as (w2 & Hr & _ & _ & _ & _ & _ & _ & Ht2 & _).
    rewrite <- Epre, Hr. cbn [race].
    rewrite Hle, (identify_step co _ raw identify w2 Hhb Hid).
    destruct (on_identify_tasks co (Some (length (tasks w1))) identify claims w2 Htok)
      as (w' & u & c & C & Ho & HC & Hts & Hm & Hh).
    rewrite Ho. exists w', u, c, C. unfold w1 in Ht2, Hh. simpl in Ht2, Hh.
    assert (Hts' : tasks w' = tasks w ++ [HeartbeatHandlerTask 0; GatewayMainTask]).
    { rewrite Hts, Ht2, <- app_assoc. reflexivity. }
    split; [done|]. split; [done|]. split; [exact Hts'|].
    rewrite Hts', Hm, Hh, Ht2, length_app. simpl. split.
    + rewrite <- Nat.add_1_r, nth_error_app_length. done.
    + rewrite <- (Nat.add_0_r (length (tasks w))), nth_error_app_length. done.
Qed.

(** Before the deadline, a kill signal ends the handshake with [Closed], the
    end of the stream with [Timeout] and a transport error with that error,
    at the time they arrive; none of them registers a user or a client. *)
Theorem handshake_ends_without_registering (co : Collaborators)
    (pre post : list (N * Event)) (t : N) (ev : Event) (w : World)
    (Hpre : forallb (heartbeat_before_deadline co) pre = true)
    (Ht : t < handshake_timeout_ms)
    (Hev : ev = KillReceived \/ ev = Incoming None \/
           exists e, ev = Incoming (Some (Err e))) :
  let '(w', r, t') := establish_connection co (Ok tt) (Ok tt) (pre ++ (t, ev) :: post) w in
  t' = t /\ store w' = store w /\ users w' = users w /\ clients w' = clients w /\
  next_loc w' = next_loc w /\
  r = match ev with
      | KillReceived => Err (EGateway Closed)
      | Incoming (Some (Err e)) => Err (ETungstenite e)
      | Incoming _ => Err (EGateway Timeout)
      end.
Proof.
  destruct (establish_connection_after_heartbeats co pre ((t, ev) :: post) w Hpre)
    as (hh' & w1 & Hr & Hu & Hc & Hs & Hn & _).
  rewrite Hr. cbn [race].
  rewrite (before_deadline t) by (apply N.ltb_lt; exact Ht).
  destruct Hev as [-> | [-> | [e ->]]]; simpl; repeat split; assumption.
Qed.

(** Two successive verified Identifies carrying the same user id share one
    [GatewayUser]: the second finds the user the first created, both clients
    are distinct and both are in the user's client list. *)
Theorem identify_twice_shares_user (co : Collaborators)
    (pre1 post1 pre2 post2 : list (N * Event)) (t1 t2 : N) (raw1 raw2 : Message)
    (id1 id2 : GatewayIdentifyPayload) (claims1 claims2 : Claims) (w : World)
    (Hwf : wf w) (Hinv : parent_inv w)
    (Hpre1 : forallb (heartbeat_before_deadline co) pre1 = true)
    (Ht1 : t1 < handshake_timeout_ms)
    (Hhb1 : parse_heartbeat co (message_to_string co raw1) = None)
    (Hid1 : parse_identify co (message_to_string co raw1) = Some id1)
    (Htok1 : check_token co (identify_token id1) = Some claims1)
    (Hpre2 : forallb (heartbeat_before_deadline co) pre2 = true)
    (Ht2 : t2 < handshake_timeout_ms)
    (Hhb2 : parse_heartbeat co (message_to_string co raw2) = None)
    (Hid2 : parse_identify co (message_to_string co raw2) = Some id2)
    (Htok2 : check_token co (identify_token id2) = Some claims2)
    (Hsame : claims_id claims1 = claims_id claims2) :
  exists w1 w2 u c1 c2 U,
    establish_connection co (Ok tt) (Ok tt)
      (pre1 ++ (t1, Incoming (Some (Ok raw1))) :: post1) w =
      (w1, Ok (mkNewConnection u c1), t1) /\
    establish_connection co (Ok tt) (Ok tt)
      (pre2 ++ (t2, Incoming (Some (Ok raw2))) :: post2) w1 =
      (w2, Ok (mkNewConnection u c2), t2) /\
    c1 <> c2 /\ users w2 !! u = Some U /\
    c1 ∈ gu_clients U /\ c2 ∈ gu_clients U /\ parent_inv w2.
Proof.
  destruct (run_identify_ext co pre1 post1 t1 raw1 id1 claims1 w
              Hwf Hinv Hpre1 Ht1 Hhb1 Hid1 Htok1)
    as (w1 & u & c1 & E1 & Hs1 & _ & _ & Hc1 & _ & (U1 & HU1 & HcU1) & Hwf1 & Hinv1).
  destruct (run_identify_ext co pre2 post2 t2 raw2 id2 claims2 w1
              Hwf1 Hinv1 Hpre2 Ht2 Hhb2 Hid2 Htok2)
    as (w2 & u2 & c2 & E2 & Hs2 & Hkeep & Hfresh2 & _ & _ & (U2 & HU2 & HcU2) & _ & Hinv2).
  rewrite <- Hsame in Hs2. rewrite (Hkeep _ _ Hs1) in Hs2. injection Hs2 as <-.
  exists w1, w2, u, c1, c2, U2. rewrite E1, E2.
  split; [done|]. split; [done|]. split.
  { intros <-. destruct Hc1 as [C HC]. congruence. }
  split; [done|]. rewrite HcU2, HU1. simpl. rewrite HcU1.
  split; set_solver.
Qed.

End GatewayExtra.

(** ** Runs of the extra properties *)
Module ExtraRuns.
Import Rest RestExtra.

(** Channel 5 holds message 9 and 50 pinned messages; every write succeeds. *)
Definition channel5_db : PinsDb :=
  mkPinsDb
    (fun ch mid => if N.eqb ch 5 && N.eqb mid 9 then Ok (Some (mkMessageRow 9 5 (Some 7)))
                   else Ok None)
    (fun _ => Ok 50%Z)
    (fun _ _ => Ok tt).

Definition channel5_state : PinsState := mkPinsState (<[3 := true]> ∅) [].

Lemma add_pinned_message_below_limit_witness :
  (Z.of_N 60 > 50)%Z /\
  add_pinned_message channel5_db 60 channel5_state 5 9 =
    (mkPinsState (<[9 := true]> (<[3 := true]> ∅))
       [GetById 5 9; CountPinned 5; SetPinned 9 true],
     Ok NO_CONTENT).
Proof.
  split; [vm_compute; reflexivity|].
  exact (add_pinned_message_below_limit channel5_db 60 channel5_state 5 9
           (mkMessageRow 9 5 (Some 7)) 50 eq_refl eq_refl
           ltac:(vm_compute; reflexivity) ltac:(vm_compute; reflexivity) eq_refl).
Defined.

Lemma pin_then_unpin_witness :
  pinned (fst (remove_pinned_message channel5_db
                 (fst (add_pinned_message channel5_db 60 channel5_state 5 9)) 5 9)) =
  <[9 := false]> (<[3 := true]> ∅).
Proof.
  exact (pin_then_unpin channel5_db 60 channel5_state 5 9
           (mkMessageRow 9 5 (Some 7)) eq_refl eq_refl).
Defined.

End ExtraRuns.

Module AuditLogRuns.
Import AuditLog AuditLogFacts.

(** Rows are numbers; only the even ones decode. *)
Definition even_rows (_ : QueryBuilder) : Result (list N) string := Ok [2; 5; 8].

Definition decode_even (n : N) : Result N string :=
  if N.even n then Ok n else Err "odd row"%string.

Lemma get_by_guild_drops_undecodable_witness :
  even_rows (get_by_guild_query 7 None None 50 None None) = Ok [2; 5; 8] /\
  exists entries,
    get_by_guild even_rows decode_even 7 None None 50 None None = Ok entries /\
    (length entries <= 3)%nat /\
    (forall e, In e entries <-> exists row, In row [2; 5; 8] /\ decode_even row = Ok e) /\
    ((forall row, In row [2; 5; 8] -> exists e, decode_even row = Ok e) ->
       length entries = 3%nat).
Proof.
  split; [reflexivity|].
  exact (get_by_guild_drops_undecodable even_rows decode_even 7 None None 50 None None
           [2; 5; 8] eq_refl).
Defined.

End AuditLogRuns.

Module GatewayExtraRuns.
Import Gateway Demo GatewayFacts GatewayExtra.

Definition heartbeat_at (t : N) (s : string) : N * Event := (t, Incoming (Some (Ok (Text s)))).

Definition identify_at (t : N) : N * Event := heartbeat_at t "{op:2,token:VALID}".


Lemma identify_spawns_main_and_handler_witness :
  exists w' u c C,
    establish_connection demo (Ok tt) (Ok tt)
      ([heartbeat_at 100 "{op:1}"] ++ identify_at 2000 :: []) empty_world =
      (w', Ok (mkNewConnection u c), 2000) /\
    clients w' !! c = Some C /\
    tasks w' = [HeartbeatHandlerTask 0; GatewayMainTask] /\
    nth_error (tasks w') (gc_main_task_handle C) = Some GatewayMainTask /\
    nth_error (tasks w') (gc_heartbeat_task_handle C) = Some (HeartbeatHandlerTask 0).
Proof.
  exact (identify_spawns_main_and_handler demo [heartbeat_at 100 "{op:1}"] [] 2000
           (Text "{op:2,token:VALID}") (mkIdentify "VALID") (mkClaims 42) empty_world
           ltac:(vm_compute; reflexivity) ltac:(vm_compute; reflexivity)
           eq_refl eq_refl eq_refl).
Defined.

Lemma handshake_ends_without_registering_witness :
  let '(w', r, t') := establish_connection demo (Ok tt) (Ok tt)
                        ([heartbeat_at 100 "{op:1}"] ++ (500, KillReceived) :: []) empty_world in
  t' = 500 /\ store w' = ∅ /\ users w' = ∅ /\ clients w' = ∅ /\ next_loc w' = 0 /\
  r = Err (EGateway Closed).
Proof.
  exact (handshake_ends_without_registering demo [heartbeat_at 100 "{op:1}"] [] 500
           KillReceived empty_world ltac:(vm_compute; reflexivity)
           ltac:(vm_compute; reflexivity) (or_introl eq_refl)).
Defined.

Lemma identify_twice_shares_user_witness :
  wf empty_world /\ parent_inv empty_world /\
  exists w1 w2 u c1 c2 U,
    establish_connection demo (Ok tt) (Ok tt)
      ([heartbeat_at 100 "{op:1}"] ++ identify_at 2000 :: []) empty_world =
      (w1, Ok (mkNewConnection u c1), 2000) /\
    establish_connection demo (Ok tt) (Ok tt) ([] ++ identify_at 700 :: []) w1 =
      (w2, Ok (mkNewConnection u c2), 700) /\
    c1 <> c2 /\ users w2 !! u = Some U /\
    c1 ∈ gu_clients U /\ c2 ∈ gu_clients U /\ parent_inv w2.
Proof.
  assert (Hwf : wf empty_world) by (apply (bool_decide_unpack _); vm_compute; exact I).
  assert (Hinv : parent_inv empty_world) by (apply (bool_decide_unpack _); vm_compute; exact I).
  split; [exact Hwf|]. split; [exact Hinv|].
  exact (identify_twice_shares_user demo [heartbeat_at 100 "{op:1}"] [] [] [] 2000 700
           (Text "{op:2,token:VALID}") (Text "{op:2,token:VALID}")
           (mkIdentify "VALID") (mkIdentify "VALID") (mkClaims 42) (mkClaims 42)
           empty_world Hwf Hinv
           ltac:(vm_compute; reflexivity) ltac:(vm_compute; reflexivity) eq_refl eq_refl eq_refl
           ltac:(vm_compute; reflexivity) ltac:(vm_compute; reflexivity) eq_refl eq_refl eq_refl
           eq_refl).
Defined.

End GatewayExtraRuns.
